(** * Resemble streaming TTS: the session protocol of [run_tts], [stop] and [listen]

    Shallow embedding of
    - [src/pipecat_resemble/resemble_pipecat_tts.py] ([ResembleTTSService]) and
    - [src/tts-websocket/tts-websocket.py] (the stand-alone client [listen]).

    The asynchronous generator [run_tts] is modelled by the list of frames it
    yields when it is driven against a scripted transport; the calls it makes
    on its collaborators (websocket, metrics hooks, playback stream, logger)
    are recorded in a second list. *)

From Stdlib Require Import ZArith String List Floats.SpecFloat.
From stdpp Require Import base option list gmap strings pretty.
Import ListNotations.
Local Open Scope string_scope.
Local Open Scope Z_scope.
Local Open Scope list_scope.

(** ** Python values, as [json.loads] produces them *)

#[warnings="-register-all"]
Inductive pyvalue :=
| PyNone
| PyBool (b : bool)
| PyInt (n : Z)
| PyFloat (f : spec_float)
| PyStr (s : string)
| PyList (l : list pyvalue)
| PyDict (d : gmap string pyvalue).

Definition bytes := list Byte.byte.

(** [type(v).__name__] *)
Definition type_name (v : pyvalue) : string :=
  match v with
  | PyNone => "NoneType"
  | PyBool _ => "bool"
  | PyInt _ => "int"
  | PyFloat _ => "float"
  | PyStr _ => "str"
  | PyList _ => "list"
  | PyDict _ => "dict"
  end.

(** [f == n] for a float [f] and an int [n]: Python compares the exact
    mathematical values; infinities and NaN equal no integer. *)
Definition float_eq_int (f : spec_float) (n : Z) : bool :=
  match f with
  | S754_zero _ => n =? 0
  | S754_finite sgn m e =>
      let v := if sgn then Z.neg m else Z.pos m in
      if 0 <=? e then v * 2 ^ e =? n else v =? n * 2 ^ (- e)
  | S754_infinity _ | S754_nan => false
  end.

(** [v == n] for an int [n].  [bool] is a subclass of [int], so [True == 1]. *)
Definition py_eq_int (v : pyvalue) (n : Z) : bool :=
  match v with
  | PyBool b => (if b then 1 else 0) =? n
  | PyInt k => k =? n
  | PyFloat f => float_eq_int f n
  | PyNone | PyStr _ | PyList _ | PyDict _ => false
  end.

(** [v != n] *)
Definition py_ne_int (v : pyvalue) (n : Z) : bool := negb (py_eq_int v n).

(** [v == s] for a str [s] *)
Definition py_eq_str (v : pyvalue) (s : string) : bool :=
  match v with
  | PyStr t => bool_decide (t = s)
  | _ => false
  end.

(** ** Exceptions *)

(** The two handlers of [run_tts] tell [websockets.ConnectionClosed] from every
    other [Exception]; of the latter only [str(e)] is observed.  What is not an
    [Exception] (cancellation of the task) is caught by neither handler and
    is not modelled. *)
Inductive exn :=
| ConnectionClosed
| Exception (description : string).

(** [data.get(key)] and [data.get(key, default)]: only a dict has [get]. *)
Definition AttributeError_get (v : pyvalue) : exn :=
  Exception ("'" +:+ type_name v +:+ "' object has no attribute 'get'").

Definition dict_get (data : pyvalue) (key : string) (dflt : pyvalue) : exn + pyvalue :=
  match data with
  | PyDict d => inr (default dflt (d !! key))
  | _ => inl (AttributeError_get data)
  end.

(** [data[key]] for a str [key].  [str(KeyError(key))] is [repr(key)]; the keys
    used by the code are plain identifiers.  What a value that is not a dict
    raises is a [TypeError]; its text is never observed by either program. *)
Definition KeyError (key : string) : exn := Exception ("'" +:+ key +:+ "'").

Definition TypeError_subscript (v : pyvalue) : exn :=
  match v with
  | PyList _ => Exception "list indices must be integers or slices, not str"
  | PyStr _ => Exception "string indices must be integers, not 'str'"
  | _ => Exception ("'" +:+ type_name v +:+ "' object is not subscriptable")
  end.

Definition dict_item (data : pyvalue) (key : string) : exn + pyvalue :=
  match data with
  | PyDict d =>
      match d !! key with
      | Some v => inr v
      | None => inl (KeyError key)
      end
  | _ => inl (TypeError_subscript data)
  end.

(** ** Frames, collaborator calls, and the service object *)

(** Audio configuration (module constants). *)
Definition SAMPLE_RATE : Z := 48000.
Definition CHUNK_SIZE : Z := 1024.

(** The frames of the host pipeline that this service produces.  In the words
    of the specification: [TTSStartedFrame] is Started, [TTSAudioRawFrame] is
    AudioChunk, [TTSStoppedFrame] is Stopped and [ErrorFrame] is Failed. *)
Inductive frame :=
| TTSStartedFrame
| TTSAudioRawFrame (audio : bytes) (sample_rate : Z) (num_channels : Z)
| TTSStoppedFrame
| ErrorFrame (error : string)
| EndFrame.

Definition is_audio (f : frame) : bool :=
  match f with TTSAudioRawFrame _ _ _ => true | _ => false end.

Definition is_terminal (f : frame) : bool :=
  match f with TTSStoppedFrame | ErrorFrame _ => true | _ => false end.

(** A websocket connection object, named by a handle. *)
Definition conn := nat.

(** [InputParams] *)
Record InputParams := {
  speed : option spec_float;
  pitch : option spec_float;
  no_audio_header : bool
}.

Definition default_params : InputParams :=
  {| speed := None; pitch := None; no_audio_header := true |}.

(** The PyAudio output stream held in [self._stream]. *)
Inductive stream_status := Active | Stopped | Closed.

Record stream := {
  status : stream_status;
  played : list bytes          (* what [write] has handed to the device *)
}.

(** Calls on collaborators, in the order they are made.  The logger and the
    metrics hooks of the host framework are recorded and return normally. *)
Inductive call :=
| LogDebug (msg : string)
| LogError (msg : string)
| Connect (uri : string) (authorization : string) (ping_interval ping_timeout : Z)
| StartTtfbMetrics
| StartTtsUsageMetrics (text : string)
| StopTtfbMetrics
| Send (c : conn) (request : list (string * pyvalue))   (* [json.dumps] of it *)
| Recv (c : conn)
| StreamWrite (audio : bytes)
| WsClose (c : conn)
| StreamStop
| StreamClose
| PyAudioTerminate
| SuperStop (f : frame).

Definition is_connect (c : call) : bool :=
  match c with Connect _ _ _ _ => true | _ => false end.
Definition is_send (c : call) : bool :=
  match c with Send _ _ => true | _ => false end.
Definition is_ws_close (c : call) : bool :=
  match c with WsClose _ => true | _ => false end.

(** The service object together with the resources it refers to.  The fields
    with a leading underscore are the attributes of [ResembleTTSService];
    [open_conns] is the set of websocket connections of the process that are
    open. *)
Record service := {
  _api_key : string;
  _voice_uuid : string;
  _project_uuid : string;
  _params : InputParams;
  _websocket : option conn;
  _request_id : Z;
  _pyaudio : bool;             (* PortAudio initialised and not terminated *)
  _stream : stream;
  open_conns : gset conn
}.

Definition set_websocket (c : conn) (s : service) : service :=
  {| _api_key := _api_key s; _voice_uuid := _voice_uuid s;
     _project_uuid := _project_uuid s; _params := _params s;
     _websocket := Some c; _request_id := _request_id s;
     _pyaudio := _pyaudio s; _stream := _stream s;
     open_conns := {[c]} ∪ open_conns s |}.

Definition set_request_id (n : Z) (s : service) : service :=
  {| _api_key := _api_key s; _voice_uuid := _voice_uuid s;
     _project_uuid := _project_uuid s; _params := _params s;
     _websocket := _websocket s; _request_id := n;
     _pyaudio := _pyaudio s; _stream := _stream s;
     open_conns := open_conns s |}.

Definition set_stream (st : stream) (s : service) : service :=
  {| _api_key := _api_key s; _voice_uuid := _voice_uuid s;
     _project_uuid := _project_uuid s; _params := _params s;
     _websocket := _websocket s; _request_id := _request_id s;
     _pyaudio := _pyaudio s; _stream := st;
     open_conns := open_conns s |}.

(** [ResembleTTSService.__init__]: no connection, counter at zero, PortAudio
    initialised and an output stream opened (PyAudio starts it at once). *)
Definition init (api_key voice_uuid project_uuid : string) (params : InputParams) : service :=
  {| _api_key := api_key; _voice_uuid := voice_uuid;
     _project_uuid := project_uuid; _params := params;
     _websocket := None; _request_id := 0;
     _pyaudio := true; _stream := {| status := Active; played := [] |};
     open_conns := ∅ |}.

(** ** Library functions and the transport *)

(** Functions of the Python library that the code calls and whose result it
    passes on.  They are parameters of the development. *)
Class runtime := {
  (** [base64.b64decode(v)]: the bytes, or [str(e)] of what it raises *)
  b64decode : pyvalue -> string + bytes;
  (** [format(v, "")] for a value that is not a str (an f-string field) *)
  py_repr : pyvalue -> string;
  (** [str(e)] of what [Stream.write] raises on a stream that is not active *)
  write_error : stream_status -> string
}.

(** An inbound websocket message, by what [json.loads] makes of it. *)
Inductive message :=
| Malformed (why : string)       (* [json.loads] raises; [why] is [str(e)] *)
| Parsed (data : pyvalue).

Definition json_loads (m : message) : exn + pyvalue :=
  match m with
  | Malformed why => inl (Exception why)
  | Parsed data => inr data
  end.

(** The outcome of one [await websocket.recv()]. *)
Inductive recv :=
| Delivers (m : message)
| Fails (e : exn).

(** What the network does during one invocation of [run_tts]: the outcome of
    [websockets.connect], of [send] (consulted when the connection was made),
    and of the successive [recv] calls.  When [inbound] is used up the next
    [recv] stays pending. *)
Record transport := {
  connect : exn + conn;
  send : option exn;
  inbound : list recv
}.

Definition URI : string := "wss://websocket.cluster.resemble.ai/stream".

Definition drop_conn (c : conn) (s : service) : service :=
  {| _api_key := _api_key s; _voice_uuid := _voice_uuid s;
     _project_uuid := _project_uuid s; _params := _params s;
     _websocket := _websocket s; _request_id := _request_id s;
     _pyaudio := _pyaudio s; _stream := _stream s;
     open_conns := open_conns s ∖ {[c]} |}.

(** A connection that raised [ConnectionClosed] is closed. *)
Definition note_failure (c : conn) (e : exn) (s : service) : service :=
  match e with
  | ConnectionClosed => drop_conn c s
  | Exception _ => s
  end.

(** The request dict of [run_tts], in insertion order. *)
Definition optional_field (key : string) (v : option spec_float) : list (string * pyvalue) :=
  match v with
  | Some f => [(key, PyFloat f)]
  | None => []
  end.

Definition build_request (s : service) (text : string) : list (string * pyvalue) :=
  [ ("voice_uuid", PyStr (_voice_uuid s));
    ("project_uuid", PyStr (_project_uuid s));
    ("data", PyStr text);
    ("sample_rate", PyInt SAMPLE_RATE);
    ("precision", PyStr "PCM_16");
    ("no_audio_header", PyBool (no_audio_header (_params s)));
    ("request_id", PyInt (_request_id s));
    ("binary_response", PyBool false) ]
  ++ optional_field "speed" (speed (_params s))
  ++ optional_field "pitch" (pitch (_params s)).

(** ** One pass through the body of the receive loop *)

Inductive control :=
| Continue            (* next iteration *)
| Break               (* [break] *)
| Raise (e : exn).    (* an exception leaves the loop *)

Record step := {
  yielded : list frame;
  issued : list call;
  after : service;
  ctl : control
}.

Section Service.
Context `{RT : runtime}.

(** [self._stream.write(audio)] *)
Definition stream_write (st : stream) (audio : bytes) : exn + stream :=
  match status st with
  | Active => inr {| status := Active; played := played st ++ [audio] |}
  | other => inl (Exception (write_error other))
  end.

(** [f"{v}"] *)
Definition py_format (v : pyvalue) : string :=
  match v with
  | PyStr s => s
  | other => py_repr other
  end.

(** Lines 105 to 123 of [run_tts], for one received [message]. *)
Definition handle_message (s : service) (m : message) : step :=
  let stop fs cs s' k := {| yielded := fs; issued := cs; after := s'; ctl := k |} in
  match json_loads m with
  | inl e => stop [] [] s (Raise e)
  | inr data =>
  match dict_get data "request_id" PyNone with
  | inl e => stop [] [] s (Raise e)
  | inr rid =>
  if py_ne_int rid (_request_id s) then stop [] [] s Continue else
  match dict_item data "type" with
  | inl e => stop [] [] s (Raise e)
  | inr ty =>
  if py_eq_str ty "audio" then
    match dict_item data "audio_content" with
    | inl e => stop [] [StopTtfbMetrics] s (Raise e)
    | inr content =>
    match b64decode content with
    | inl why => stop [] [StopTtfbMetrics] s (Raise (Exception why))
    | inr audio =>
    match stream_write (_stream s) audio with
    | inl e => stop [] [StopTtfbMetrics; StreamWrite audio] s (Raise e)
    | inr st =>
        stop [TTSAudioRawFrame audio SAMPLE_RATE 1]
             [StopTtfbMetrics; StreamWrite audio] (set_stream st s) Continue
    end end end
  else if py_eq_str ty "audio_end" then
    stop [TTSStoppedFrame] [] s Break
  else if py_eq_str ty "error" then
    match dict_get data "message" (PyStr "Unknown error") with
    | inl e => stop [] [] s (Raise e)
    | inr error_msg =>
        stop [ErrorFrame ("API Error: " +:+ py_format error_msg)] [] s Break
    end
  else stop [] [] s Continue
  end end end.

(** ** The receive loop and the generator *)

Inductive outcome :=
| Awaiting            (* suspended in [recv]: nothing more has arrived *)
| Completed           (* left by [break] *)
| Raised (e : exn).

Record attempt := {
  frames : list frame;
  calls : list call;
  final : service;
  how : outcome
}.

Definition prepend (fs : list frame) (cs : list call) (a : attempt) : attempt :=
  {| frames := fs ++ frames a; calls := cs ++ calls a;
     final := final a; how := how a |}.

(** [while True:] of [run_tts], on the connection [c] held in [self._websocket]. *)
Fixpoint receive_loop (c : conn) (s : service) (script : list recv) : attempt :=
  match script with
  | [] => {| frames := []; calls := [Recv c]; final := s; how := Awaiting |}
  | Fails e :: _ =>
      {| frames := []; calls := [Recv c]; final := note_failure c e s; how := Raised e |}
  | Delivers m :: rest =>
      let st := handle_message s m in
      match ctl st with
      | Continue =>
          prepend (yielded st) (Recv c :: issued st) (receive_loop c (after st) rest)
      | Break =>
          {| frames := yielded st; calls := Recv c :: issued st;
             final := after st; how := Completed |}
      | Raise e =>
          {| frames := yielded st; calls := Recv c :: issued st;
             final := after st; how := Raised e |}
      end
  end.

(** The [try] block of [run_tts]. *)
Definition try_block (s : service) (text : string) (net : transport) : attempt :=
  let dial := Connect URI ("Bearer " +:+ _api_key s) 5 20 in
  match connect net with
  | inl e => {| frames := []; calls := [dial]; final := s; how := Raised e |}
  | inr c =>
      let s1 := set_websocket c s in
      let s2 := set_request_id (_request_id s1 + 1) s1 in
      let request := build_request s2 text in
      match send net with
      | Some e =>
          {| frames := []; calls := [dial; StartTtfbMetrics; Send c request];
             final := note_failure c e s2; how := Raised e |}
      | None =>
          prepend [TTSStartedFrame]
                  [dial; StartTtfbMetrics; Send c request; StartTtsUsageMetrics text]
                  (receive_loop c s2 (inbound net))
      end
  end.

(** What one invocation of [run_tts] has done once the consumer has pulled
    every frame the transport allows: the frames yielded, the calls made, the
    service afterwards, and whether the generator has returned. *)
Record run := {
  events : list frame;
  effects : list call;
  service_after : service;
  ended : bool
}.

(** [run_tts]: the [try] block, its two handlers and the [finally] clause. *)
Definition run_tts (s : service) (text : string) (net : transport) : run :=
  let a := try_block s text net in
  let log := LogDebug ("Generating TTS for: " +:+ text) in
  match how a with
  | Awaiting =>
      {| events := frames a; effects := log :: calls a;
         service_after := final a; ended := false |}
  | Completed =>
      {| events := frames a; effects := log :: calls a;
         service_after := set_request_id 0 (final a); ended := true |}
  | Raised ConnectionClosed =>
      {| events := frames a ++ [ErrorFrame "Connection closed unexpectedly"];
         effects := log :: calls a;
         service_after := set_request_id 0 (final a); ended := true |}
  | Raised (Exception description) =>
      {| events := frames a ++ [ErrorFrame description];
         effects := log :: calls a ++ [LogError ("Error during TTS: " +:+ description)];
         service_after := set_request_id 0 (final a); ended := true |}
  end.

(** ** [stop] *)

(** [Stream.stop_stream], [Stream.close] and [PyAudio.terminate] are driver
    calls; they are modelled by what they do to the status of the resource. *)
Definition stop_stream (st : stream) : stream :=
  match status st with
  | Active => {| status := Stopped; played := played st |}
  | _ => st
  end.

Definition close_stream (st : stream) : stream :=
  {| status := Closed; played := played st |}.

Definition terminate (s : service) : service :=
  {| _api_key := _api_key s; _voice_uuid := _voice_uuid s;
     _project_uuid := _project_uuid s; _params := _params s;
     _websocket := _websocket s; _request_id := _request_id s;
     _pyaudio := false; _stream := _stream s;
     open_conns := open_conns s |}.

(** [stop(frame)].  Both [hasattr] tests hold on every constructed service:
    [__init__] sets [_stream] and [_pyaudio] and nothing deletes them.  A
    connection object and a frame object are truthy. *)
Definition stop (s : service) (f : option frame) : service * list call :=
  let '(s1, c1) :=
    match _websocket s with
    | Some c => (drop_conn c s, [WsClose c])
    | None => (s, [])
    end in
  let s2 := set_stream (close_stream (stop_stream (_stream s1))) s1 in
  let s3 := terminate s2 in
  (s3, c1 ++ [StreamStop; StreamClose; PyAudioTerminate;
              SuperStop (default EndFrame f)]).

(** [stop] called [n] times in a row, each time with [f]. *)
Fixpoint stop_times (n : nat) (s : service) (f : option frame) : service * list call :=
  match n with
  | O => (s, [])
  | S k =>
      let '(s1, c1) := stop s f in
      let '(s2, c2) := stop_times k s1 f in
      (s2, c1 ++ c2)
  end.

End Service.

(** ** The stand-alone client: the receive loop of [listen] *)

(** What [listen] prints. *)
Inductive console :=
| PrintTTFS               (* [print(f"TTFS: {end_time - start_time}s")] *)
| PrintNotJson.           (* [print("Expected json but did not receive json.")] *)

(** The variables of the inner loop: [first_byte] ([None], here [false], or
    [True]) and the module-level [stream]. *)
Record client := {
  first_byte : bool;
  out : stream
}.

Record client_step := {
  printed : list console;
  client_after : client;
  client_ctl : control
}.

Record client_run := {
  console_out : list console;
  client_final : client;
  client_how : outcome
}.

Section Client.
Context `{RT : runtime}.

(** The body of the [try] statement (lines 45 to 56), before its handler. *)
Definition listen_try (k : client) (m : message) : client_step :=
  let stop ps k' c := {| printed := ps; client_after := k'; client_ctl := c |} in
  match json_loads m with
  | inl e => stop [] k (Raise e)
  | inr data =>
  match dict_item data "type" with
  | inl e => stop [] k (Raise e)
  | inr ty =>
  if py_eq_str ty "audio" then
    match dict_item data "audio_content" with
    | inl e => stop [] k (Raise e)
    | inr content =>
    match b64decode content with
    | inl why => stop [] k (Raise (Exception why))
    | inr audio =>
        let ps := if first_byte k then [] else [PrintTTFS] in
        match stream_write (out k) audio with
        | inl e => stop ps {| first_byte := true; out := out k |} (Raise e)
        | inr st => stop ps {| first_byte := true; out := st |} Continue
        end
    end end
  else if py_eq_str ty "audio_end" then stop [] k Break
  else stop [] k Continue
  end end.

(** Lines 43 to 59: the [try] statement with [except Exception]. *)
Definition listen_message (k : client) (m : message) : client_step :=
  let st := listen_try k m in
  match client_ctl st with
  | Raise _ =>
      {| printed := printed st ++ [PrintNotJson];
         client_after := client_after st; client_ctl := Continue |}
  | _ => st
  end.

(** The inner [while True:] of [listen]; an exception of [recv] is outside the
    [try] statement and leaves the loop. *)
Fixpoint listen_loop (k : client) (script : list recv) : client_run :=
  match script with
  | [] => {| console_out := []; client_final := k; client_how := Awaiting |}
  | Fails e :: _ => {| console_out := []; client_final := k; client_how := Raised e |}
  | Delivers m :: rest =>
      let st := listen_message k m in
      match client_ctl st with
      | Continue =>
          let r := listen_loop (client_after st) rest in
          {| console_out := printed st ++ console_out r;
             client_final := client_final r; client_how := client_how r |}
      | Break =>
          {| console_out := printed st; client_final := client_after st;
             client_how := Completed |}
      | Raise e =>
          {| console_out := printed st; client_final := client_after st;
             client_how := Raised e |}
      end
  end.

End Client.

(** ** A runtime for the scenarios

    The examples below run the model on concrete messages.  They use base64
    over the standard alphabet and a rendering of the scalar values, which
    agree with the Python functions on the inputs used here and are not
    meant to elsewhere; the theorems hold for every [runtime]. *)

Module Scenario.

Definition sextet (a : Ascii.ascii) : option N :=
  let n := Ascii.N_of_ascii a in
  if ((65 <=? n) && (n <=? 90))%N then Some (n - 65)%N
  else if ((97 <=? n) && (n <=? 122))%N then Some (n - 71)%N
  else if ((48 <=? n) && (n <=? 57))%N then Some (n + 4)%N
  else if (n =? 43)%N then Some 62%N
  else if (n =? 47)%N then Some 63%N
  else None.

(** The data characters of [s]; any other character is skipped. *)
Fixpoint sextets (s : string) : list N :=
  match s with
  | EmptyString => []
  | String a rest =>
      match sextet a with
      | Some v => v :: sextets rest
      | None => sextets rest
      end
  end.

Fixpoint pads (s : string) : nat :=
  match s with
  | EmptyString => O
  | String a rest =>
      if (Ascii.N_of_ascii a =? 61)%N then S (pads rest) else pads rest
  end.

Definition octet (n : N) : Byte.byte := default Byte.x00 (Byte.of_N (n mod 256)%N).

Fixpoint octets (l : list N) : bytes :=
  match l with
  | a :: b :: c :: d :: rest =>
      let w := (a * 262144 + b * 4096 + c * 64 + d)%N in
      octet (w / 65536) :: octet (w / 256) :: octet w :: octets rest
  | [a; b; c] =>
      let w := (a * 1024 + b * 16 + c / 4)%N in
      [octet (w / 256); octet w]
  | [a; b] => [octet (a * 4 + b / 16)]
  | _ => []
  end.

Definition decode (v : pyvalue) : string + bytes :=
  match v with
  | PyStr s =>
      let l := sextets s in
      match (length l mod 4)%nat with
      | O => inr (octets l)
      | 1%nat => inl "Invalid base64-encoded string"
      | r => if (4 - r <=? pads s)%nat then inr (octets l) else inl "Incorrect padding"
      end
  | other =>
      inl ("argument should be a bytes-like object or ASCII string, not '"
           +:+ type_name other +:+ "'")
  end.

Definition render (v : pyvalue) : string :=
  match v with
  | PyNone => "None"
  | PyBool true => "True"
  | PyBool false => "False"
  | PyInt n => pretty n
  | PyStr s => s
  | PyFloat _ | PyList _ | PyDict _ => "..."
  end.

Definition stream_error (st : stream_status) : string :=
  match st with
  | Closed => "[Errno -9988] Stream closed"
  | _ => "[Errno -9983] Stream is stopped"
  end.

#[export] Instance rt : runtime :=
  {| b64decode := decode; py_repr := render; write_error := stream_error |}.

(** Messages of the wire protocol. *)
Definition obj (fields : list (string * pyvalue)) : message :=
  Parsed (PyDict (list_to_map fields)).

Definition audio_msg (rid : Z) (content : string) : message :=
  obj [("type", PyStr "audio"); ("request_id", PyInt rid); ("audio_content", PyStr content)].

Definition audio_end_msg (rid : Z) : message :=
  obj [("type", PyStr "audio_end"); ("request_id", PyInt rid)].

Definition error_msg (rid : Z) (text : string) : message :=
  obj [("type", PyStr "error"); ("request_id", PyInt rid); ("message", PyStr text)].

Definition fresh : service := init "key" "55592656" "ca6f4989" default_params.

Definition online (script : list recv) : transport :=
  {| connect := inr 7%nat; send := None; inbound := script |}.

Definition ABC : bytes := [Byte.x41; Byte.x42; Byte.x43].
Definition hi : bytes := [Byte.x68; Byte.x69].

(** The network is unreachable: [websockets.connect] raises. *)
Definition offline : transport :=
  {| connect := inl (Exception "[Errno 111] Connect call failed");
     send := None; inbound := [] |}.

(** Text that is not JSON. *)
Definition garbage : message := Malformed "Expecting value: line 1 column 1 (char 0)".

(** A service that has completed one invocation on connection 3, which it
    still holds. *)
Definition used : service :=
  service_after
    (run_tts fresh "one"
       {| connect := inr 3%nat; send := None; inbound := [Delivers (audio_end_msg 1)] |}).

End Scenario.

(** ** Shapes of frame sequences *)

Definition all_audio (fs : list frame) : Prop :=
  Forall (λ f, is_audio f = true) fs.

(** The order the specification asks of one invocation: [Started] first, audio
    chunks only in between, exactly one terminal frame, last. *)
Definition started_then_terminal (fs : list frame) : Prop :=
  ∃ chunks last,
    fs = TTSStartedFrame :: chunks ++ [last]
    ∧ all_audio chunks ∧ is_terminal last = true.

(** The audio format every chunk is to carry. *)
Definition fixed_format (f : frame) : Prop :=
  match f with
  | TTSAudioRawFrame _ rate channels => rate = 48000 ∧ channels = 1
  | _ => True
  end.

Definition is_error (f : frame) : bool :=
  match f with ErrorFrame _ => true | _ => false end.

(** The text of the [ErrorFrame] the two handlers of [run_tts] make of [e]. *)
Definition describe (e : exn) : string :=
  match e with
  | ConnectionClosed => "Connection closed unexpectedly"
  | Exception description => description
  end.

(** Calls that neither open a connection, nor send on one, nor close one. *)
Definition quiet (x : call) : Prop :=
  is_connect x = false ∧ is_send x = false ∧ is_ws_close x = false.

Definition with_inbound (net : transport) (script : list recv) : transport :=
  {| connect := connect net; send := send net; inbound := script |}.

(** The service inside the loop of an invocation that connected to [c]. *)
Definition in_flight (c : conn) (s : service) : service :=
  set_request_id (_request_id s + 1) (set_websocket c s).

(** Reuse of an open connection, as the specification words it: an invocation
    on a service that holds an open connection opens none and keeps that one. *)
Definition reuses_open_connection `{RT : runtime}
    (s : service) (text : string) (net : transport) : Prop :=
  ∀ c, _websocket s = Some c → c ∈ open_conns s →
       List.filter is_connect (effects (run_tts s text net)) = []
       ∧ _websocket (service_after (run_tts s text net)) = Some c.

(** ** [stop], when the release calls may raise *)

(** [stop] assigns no attribute of the service: all it does is call on the
    websocket, on PyAudio and on the parent class, and an exception of one of
    those calls leaves it at once.  The calls are library code; [perform x w]
    is what the call [x] does in the state [w] of the libraries: it raises, or
    it returns and leaves them in a new state. *)
Class collaborators (W : Type) := perform : call → W → exn + W.

#[local] Instance raise_bind : MBind (sum exn) :=
  λ A B k r, match r with inl e => inl e | inr a => k a end.

(** [stop(frame)], lines 135 to 143, statement by statement. *)
Definition stop_io `{collaborators W} (s : service) (f : option frame) (w : W) : exn + W :=
  w1 ← match _websocket s with
       | Some c => perform (WsClose c) w
       | None => inr w
       end;
  w2 ← perform StreamStop w1;
  w3 ← perform StreamClose w2;
  w4 ← perform PyAudioTerminate w3;
  perform (SuperStop (default EndFrame f)) w4.

(** [stop] called [n] times in a row; the first call that raises ends it. *)
Fixpoint stop_io_times `{collaborators W} (n : nat) (s : service) (f : option frame)
    (w : W) : exn + W :=
  match n with
  | O => inr w
  | S k => w1 ← stop_io s f w; stop_io_times k s f w1
  end.




(** The libraries as [stop] above takes them: a call returns, and does to the
    status of its resource what its name says. *)
Definition release (x : call) (s : service) : service :=
  match x with
  | WsClose c => drop_conn c s
  | StreamStop => set_stream (stop_stream (_stream s)) s
  | StreamClose => set_stream (close_stream (_stream s)) s
  | PyAudioTerminate => terminate s
  | _ => s
  end.


(** Libraries that are less forgiving: as [status_model], but closing a
    stream that is closed raises. *)
Definition strict_model : collaborators service :=
  λ x s, match x, status (_stream s) with
         | StreamClose, Closed => inl (Exception "Stream closed")
         | _, _ => inr (release x s)
         end.

(** ** The rest of the two programs *)

(** The bytes carried by the audio frames of a sequence, in order. *)
Definition payloads (fs : list frame) : list bytes :=
  flat_map (λ f, match f with TTSAudioRawFrame audio _ _ => [audio] | _ => [] end) fs.

(** The keys of a request dict, in order. *)
Definition keys (request : list (string * pyvalue)) : list string := map fst request.

(** [can_generate_metrics] *)
Definition can_generate_metrics (s : service) : bool := true.

(** What [test_resemble_tts] prints. *)
Inductive said :=
| SayStarted                 (* the marker for a [TTSStartedFrame] *)
| SayCompleted               (* the marker for a [TTSStoppedFrame] *)
| SayError (error : string)  (* the marker for an [ErrorFrame], with [frame.error] *)
| SayFailed (why : string)   (* "Test failed", with [str(e)] *)
| SayCleaned.                (* "Cleaned up resources" *)

(** The branch of the [async for] body taken for a frame; an audio frame
    matches none of the three [isinstance] tests. *)
Definition report (f : frame) : list said :=
  match f with
  | TTSStartedFrame => [SayStarted]
  | TTSStoppedFrame => [SayCompleted]
  | ErrorFrame error => [SayError error]
  | TTSAudioRawFrame _ _ _ | EndFrame => []
  end.

Record harness := {
  said_lines : list said;
  harness_calls : list call;
  harness_service : option service;   (* [tts], once constructed *)
  harness_how : outcome
}.

(** [not api_key], for the result of [os.getenv]. *)
Definition key_missing (api_key : option string) : bool :=
  match api_key with
  | None | Some EmptyString => true
  | Some _ => false
  end.

Section Harness.
Context `{RT : runtime}.

(** [test_resemble_tts], given the value of [RESEMBLE_API_KEY], the outcome of
    [input] ([str(e)] of what it raises, or the line) and the network. *)
Definition test_resemble_tts (api_key : option string) (typed : string + string)
    (net : transport) : harness :=
  if key_missing api_key then
    {| said_lines := []; harness_calls := []; harness_service := None;
       harness_how := Raised (Exception "RESEMBLE_API_KEY not found in .env file") |}
  else
    let tts := init (default "" api_key) "55592656" "ca6f4989" default_params in
    match typed with
    | inl why =>
        let '(s', cs) := stop tts (Some EndFrame) in
        {| said_lines := [SayFailed why; SayCleaned]; harness_calls := cs;
           harness_service := Some s'; harness_how := Completed |}
    | inr text =>
        let r := run_tts tts text net in
        if ended r then
          let '(s', cs) := stop (service_after r) (Some EndFrame) in
          {| said_lines := flat_map report (events r) ++ [SayCleaned];
             harness_calls := effects r ++ cs;
             harness_service := Some s'; harness_how := Completed |}
        else
          {| said_lines := flat_map report (events r);
             harness_calls := effects r;
             harness_service := Some (service_after r); harness_how := Awaiting |}
    end.

End Harness.

(** [listen], the whole of it.  One [turn] is one pass through the outer loop:
    the outcome of [websocket.ping()], of [input] and of [websocket.send]. *)
Record turn := {
  ping : option exn;
  typed_line : exn + string;
  sending : option exn
}.

(** The request dict of [listen]. *)
Definition client_request (user_input : string) : list (string * pyvalue) :=
  [ ("voice_uuid", PyStr "55592656");
    ("project_uuid", PyStr "ca6f4989");
    ("data", PyStr user_input);
    ("sample_rate", PyInt 48000);
    ("precision", PyStr "PCM_16");
    ("no_audio_header", PyBool true) ].

Record session := {
  asked : list (list (string * pyvalue));   (* the requests sent *)
  shown : list console;
  speaker : stream;
  session_how : outcome
}.

Definition is_ttfs (x : console) : bool :=
  match x with PrintTTFS => true | PrintNotJson => false end.

(** An inbound [audio_end] message. *)
Definition is_audio_end (r : recv) : bool :=
  match r with
  | Delivers (Parsed (PyDict d)) =>
      match d !! "type" with
      | Some ty => py_eq_str ty "audio_end"
      | None => false
      end
  | _ => false
  end.

Section Listen.
Context `{RT : runtime}.

(** What the inner loop leaves of the inbound messages when it is left by
    [break]. *)
Fixpoint unread (k : client) (script : list recv) : list recv :=
  match script with
  | [] => []
  | Fails _ :: rest => rest
  | Delivers m :: rest =>
      match client_ctl (listen_message k m) with
      | Continue => unread (client_after (listen_message k m)) rest
      | _ => rest
      end
  end.

(** The outer [while True:] of [listen] on an open connection. *)
Fixpoint listen_turns (st : stream) (turns : list turn) (script : list recv) : session :=
  let halt how := {| asked := []; shown := []; speaker := st; session_how := how |} in
  match turns with
  | [] => halt Awaiting
  | t :: later =>
      match ping t with
      | Some e => halt (Raised e)
      | None =>
      match typed_line t with
      | inl e => halt (Raised e)
      | inr user_input =>
      match sending t with
      | Some e => halt (Raised e)
      | None =>
          let r := listen_loop {| first_byte := false; out := st |} script in
          match client_how r with
          | Completed =>
              let next := listen_turns (out (client_final r)) later
                            (unread {| first_byte := false; out := st |} script) in
              {| asked := client_request user_input :: asked next;
                 shown := console_out r ++ shown next;
                 speaker := speaker next; session_how := session_how next |}
          | other =>
              {| asked := [client_request user_input]; shown := console_out r;
                 speaker := out (client_final r); session_how := other |}
          end
      end end end
  end.

(** [listen]: [async with websockets.connect(...)] around the outer loop. *)
Definition listen (dial : option exn) (st : stream) (turns : list turn)
    (script : list recv) : session :=
  match dial with
  | Some e => {| asked := []; shown := []; speaker := st; session_how := Raised e |}
  | None => listen_turns st turns script
  end.

End Listen.

(** The attributes an invocation has no business changing. *)
Definition same_settings (s s' : service) : Prop :=
  _api_key s = _api_key s' ∧ _voice_uuid s = _voice_uuid s'
  ∧ _project_uuid s = _project_uuid s' ∧ _params s = _params s'
  ∧ _pyaudio s = _pyaudio s' ∧ status (_stream s) = status (_stream s').

(** A pass through the loop body that does nothing and goes on. *)
Definition silent (s : service) : step :=
  {| yielded := []; issued := []; after := s; ctl := Continue |}.

(** The message [r] with its [request_id] field set to [v]. *)
Definition retag (v : pyvalue) (r : recv) : recv :=
  match r with
  | Delivers (Parsed (PyDict d)) => Delivers (Parsed (PyDict (<["request_id" := v]> d)))
  | other => other
  end.

Definition is_object (v : pyvalue) : bool :=
  match v with PyDict _ => true | _ => false end.

(** The requests [listen] makes of the lines typed, one per turn in which
    [input] returns. *)
Definition requests_of (turns : list turn) : list (list (string * pyvalue)) :=
  flat_map (λ t, match typed_line t with
                 | inr user_input => [client_request user_input]
                 | inl _ => []
                 end) turns.

(** * Properties *)

Section Properties.
Context `{RT : runtime}.

Implicit Types (s : service) (m : message) (c : conn) (d : gmap string pyvalue).

Ltac step_cases :=
  unfold handle_message, dict_get, dict_item, json_loads, stream_write in *;
  repeat case_match; simplify_eq/=.

(** *** One message *)

Lemma handle_message_request_id s m :
  _request_id (after (handle_message s m)) = _request_id s.
Proof. step_cases; reflexivity. Qed.

(** What a pass yields, by the way it leaves the loop body. *)
Lemma handle_message_yield s m :
  match ctl (handle_message s m) with
  | Continue =>
      yielded (handle_message s m) = []
      ∨ ∃ audio, yielded (handle_message s m) = [TTSAudioRawFrame audio SAMPLE_RATE 1]
  | Break =>
      ∃ last, yielded (handle_message s m) = [last] ∧ is_terminal last = true
  | Raise _ => yielded (handle_message s m) = []
  end.
Proof. step_cases; eauto. Qed.

Lemma handle_message_format s m : Forall fixed_format (yielded (handle_message s m)).
Proof. step_cases; repeat constructor. Qed.

(** *** The loop *)

Lemma receive_loop_format c s script :
  Forall fixed_format (frames (receive_loop c s script)).
Proof.
  revert s. induction script as [|[m|e] rest IH]; intros s; simpl; try constructor.
  pose proof (handle_message_format s m) as Hm.
  destruct (ctl (handle_message s m)); simpl; auto.
  apply Forall_app; auto.
Qed.

(** Frames of the loop: audio chunks, closed by one terminal frame exactly
    when the loop was left by [break]. *)
Lemma receive_loop_frames c s script :
  match how (receive_loop c s script) with
  | Completed =>
      ∃ chunks last, frames (receive_loop c s script) = chunks ++ [last]
                     ∧ all_audio chunks ∧ is_terminal last = true
  | _ => all_audio (frames (receive_loop c s script))
  end.
Proof.
  revert s. induction script as [|[m|e] rest IH]; intros s; simpl;
    try (constructor; fail).
  pose proof (handle_message_yield s m) as Hm.
  destruct (ctl (handle_message s m)) eqn:Hctl; simpl.
  - specialize (IH (after (handle_message s m))).
    assert (all_audio (yielded (handle_message s m))) as Ha.
    { destruct Hm as [-> | [a ->]]; repeat constructor. }
    destruct (how (receive_loop c (after (handle_message s m)) rest)).
    + apply Forall_app; auto.
    + destruct IH as (chunks & last & -> & Hc & Hl).
      exists (yielded (handle_message s m) ++ chunks), last.
      rewrite app_assoc. split_and!; auto. apply Forall_app; auto.
    + apply Forall_app; auto.
  - destruct Hm as (last & -> & Hl). exists [], last. split_and!; auto. constructor.
  - rewrite Hm. constructor.
Qed.

(** A script on which the loop is still waiting can be continued. *)
Lemma receive_loop_app c s pre rest :
  how (receive_loop c s pre) = Awaiting →
  let a := receive_loop c s pre in
  let b := receive_loop c (final a) rest in
  frames (receive_loop c s (pre ++ rest)) = frames a ++ frames b
  ∧ final (receive_loop c s (pre ++ rest)) = final b
  ∧ how (receive_loop c s (pre ++ rest)) = how b.
Proof.
  revert s. induction pre as [|[m|e] pre IH]; intros s; simpl.
  - auto.
  - destruct (ctl (handle_message s m)); simpl; try discriminate.
    intros Hw. destruct (IH _ Hw) as (Hf & Hs & Hh).
    rewrite Hf, Hs, Hh, app_assoc. auto.
  - discriminate.
Qed.

Lemma receive_loop_request_id c s script :
  _request_id (final (receive_loop c s script)) = _request_id s.
Proof.
  revert s. induction script as [|[m|e] rest IH]; intros s; simpl; auto.
  - pose proof (handle_message_request_id s m).
    destruct (ctl (handle_message s m)); simpl; auto. rewrite IH. auto.
  - destruct e; reflexivity.
Qed.

(** *** The generator *)

Lemma run_tts_connect_failed s text net e :
  connect net = inl e →
  run_tts s text net =
    {| events := [ErrorFrame (describe e)];
       effects := LogDebug ("Generating TTS for: " +:+ text)
                  :: Connect URI ("Bearer " +:+ _api_key s) 5 20
                  :: match e with
                     | ConnectionClosed => []
                     | Exception d => [LogError ("Error during TTS: " +:+ d)]
                     end;
       service_after := set_request_id 0 s;
       ended := true |}.
Proof. intros H. unfold run_tts, try_block. rewrite H. destruct e; reflexivity. Qed.

Lemma run_tts_send_failed s text net c e :
  connect net = inr c → send net = Some e →
  events (run_tts s text net) = [ErrorFrame (describe e)]
  ∧ ended (run_tts s text net) = true.
Proof.
  intros H1 H2. unfold run_tts, try_block. rewrite H1, H2. destruct e; auto.
Qed.

(** After the request went out, the run is the [Started] frame followed by
    what the loop does. *)
Lemma run_tts_streaming s text net c :
  connect net = inr c → send net = None →
  let a := receive_loop c (in_flight c s) (inbound net) in
  events (run_tts s text net) =
    TTSStartedFrame :: frames a
    ++ match how a with Raised e => [ErrorFrame (describe e)] | _ => [] end
  ∧ ended (run_tts s text net) =
      match how a with Awaiting => false | _ => true end
  ∧ service_after (run_tts s text net) =
      match how a with
      | Awaiting => final a
      | _ => set_request_id 0 (final a)
      end.
Proof.
  intros H1 H2. unfold run_tts, try_block. rewrite H1, H2. simpl.
  fold (in_flight c s).
  destruct (how (receive_loop c (in_flight c s) (inbound net))) as [| |[|d]];
    simpl; rewrite ?app_nil_r; auto.
Qed.

(** *** Order of the frames *)

(** C1 (amended): for every invocation of [run_tts], if the connection was made
    and the request sent, the frames begin with exactly one [TTSStartedFrame],
    only audio chunks follow it, and once the generator has returned exactly
    one terminal frame ([TTSStoppedFrame] or [ErrorFrame]) is the last frame;
    while the transport has delivered no terminating message the frames are
    [TTSStartedFrame] and audio chunks.  If connecting or sending failed the
    frames are the single terminal [ErrorFrame], with no [TTSStartedFrame]. *)
Theorem run_tts_event_order s text net :
  match connect net, send net with
  | inr _, None =>
      if ended (run_tts s text net)
      then started_then_terminal (events (run_tts s text net))
      else ∃ chunks, events (run_tts s text net) = TTSStartedFrame :: chunks
                     ∧ all_audio chunks
  | inl e, _ | inr _, Some e =>
      events (run_tts s text net) = [ErrorFrame (describe e)]
      ∧ ended (run_tts s text net) = true
  end.
Proof.
  destruct (connect net) as [e|c] eqn:Hc.
  { rewrite (run_tts_connect_failed s text net e Hc). auto. }
  destruct (send net) as [e|] eqn:Hs.
  { exact (run_tts_send_failed s text net c e Hc Hs). }
  destruct (run_tts_streaming s text net c Hc Hs) as (-> & -> & _).
  pose proof (receive_loop_frames c (in_flight c s) (inbound net)) as Hf.
  destruct (how (receive_loop c (in_flight c s) (inbound net))) as [| |e].
  - rewrite app_nil_r. eauto.
  - destruct Hf as (chunks & last & -> & Ha & Hl).
    exists chunks, last. rewrite app_nil_r. auto.
  - exists (frames (receive_loop c (in_flight c s) (inbound net))), (ErrorFrame (describe e)).
    auto.
Qed.

(** C10: every [TTSAudioRawFrame] that [run_tts] yields carries the sample rate
    48000 and the channel count 1, whatever the inbound messages contain. *)
Theorem audio_chunks_fixed_format s text net :
  Forall fixed_format (events (run_tts s text net)).
Proof.
  destruct (connect net) as [e|c] eqn:Hc.
  { rewrite (run_tts_connect_failed s text net e Hc). repeat constructor. }
  destruct (send net) as [e|] eqn:Hs.
  { destruct (run_tts_send_failed s text net c e Hc Hs) as [-> _]. repeat constructor. }
  destruct (run_tts_streaming s text net c Hc Hs) as (-> & _ & _).
  constructor; [exact I|]. apply Forall_app. split.
  - apply receive_loop_format.
  - destruct (how _); repeat constructor.
Qed.

(** *** Stale messages *)

(** When [v != rid] holds for the value [v] of the field: always for a field
    that is absent ([None]) or holds a string, and for an integer exactly when
    it is another integer.  [True], [1.0] and [1] are equal in Python. *)
Lemma py_ne_int_absent rid : py_ne_int PyNone rid = true.
Proof. reflexivity. Qed.

Lemma py_ne_int_str t rid : py_ne_int (PyStr t) rid = true.
Proof. reflexivity. Qed.

Lemma py_ne_int_int k rid : py_ne_int (PyInt k) rid = true ↔ k ≠ rid.
Proof.
  unfold py_ne_int. simpl. rewrite negb_true_iff. apply Z.eqb_neq.
Qed.

Lemma py_ne_int_bool_float :
  py_ne_int (PyBool true) 1 = false
  ∧ py_ne_int (PyFloat (S754_finite false 4503599627370496 (-52))) 1 = false.
Proof. split; reflexivity. Qed.

Lemma handle_message_stale s d :
  py_ne_int (default PyNone (d !! "request_id")) (_request_id s) = true →
  handle_message s (Parsed (PyDict d)) =
    {| yielded := []; issued := []; after := s; ctl := Continue |}.
Proof. intros H. unfold handle_message. simpl. rewrite H. reflexivity. Qed.

Lemma receive_loop_skip c s pre post d :
  py_ne_int (default PyNone (d !! "request_id")) (_request_id s) = true →
  let a := receive_loop c s (pre ++ Delivers (Parsed (PyDict d)) :: post) in
  let b := receive_loop c s (pre ++ post) in
  frames a = frames b ∧ final a = final b ∧ how a = how b.
Proof.
  revert s. induction pre as [|[m|e] pre IH]; intros s Hne; simpl.
  - rewrite (handle_message_stale s d Hne). simpl. auto.
  - destruct (ctl (handle_message s m)); simpl; auto.
    destruct (IH (after (handle_message s m))) as (Hf & Hs & Hh).
    { rewrite handle_message_request_id. exact Hne. }
    rewrite Hf, Hs, Hh. auto.
  - auto.
Qed.

(** C2: an inbound message (a JSON object) whose [request_id] field is absent
    or compares unequal, by Python's [!=], to the id of the active request
    yields no frame, makes no call and leaves the service as it is, and the
    loop goes on: the invocation behaves as if the message had not arrived. *)
Theorem stale_message_discarded d rid :
  py_ne_int (default PyNone (d !! "request_id")) rid = true →
  (∀ s, _request_id s = rid →
        handle_message s (Parsed (PyDict d)) =
          {| yielded := []; issued := []; after := s; ctl := Continue |})
  ∧ (∀ s text net pre post, _request_id s + 1 = rid →
        let r1 := run_tts s text
                    (with_inbound net (pre ++ Delivers (Parsed (PyDict d)) :: post)) in
        let r2 := run_tts s text (with_inbound net (pre ++ post)) in
        events r1 = events r2
        ∧ service_after r1 = service_after r2
        ∧ ended r1 = ended r2).
Proof.
  intros Hne. split.
  - intros s <-. apply handle_message_stale. exact Hne.
  - intros s text net pre post <-. simpl.
    destruct (connect net) as [e|c] eqn:Hc.
    { rewrite !(run_tts_connect_failed s text _ e) by exact Hc. auto. }
    destruct (send net) as [e|] eqn:Hs.
    { unfold run_tts, try_block. simpl. rewrite Hc, Hs. destruct e; auto. }
    destruct (run_tts_streaming s text
                (with_inbound net (pre ++ Delivers (Parsed (PyDict d)) :: post)) c Hc Hs)
      as (-> & -> & ->).
    destruct (run_tts_streaming s text (with_inbound net (pre ++ post)) c Hc Hs)
      as (-> & -> & ->).
    simpl.
    destruct (receive_loop_skip c (in_flight c s) pre post d) as (-> & -> & ->); auto.
Qed.

(** *** Audio chunks *)

Lemma py_eq_str_true v t : py_eq_str v t = true → v = PyStr t.
Proof.
  destruct v; simpl; try discriminate.
  intros H. apply bool_decide_eq_true in H. congruence.
Qed.

(** Every audio frame of a pass comes from an [audio] message for the active
    request, and carries the decoding of its [audio_content]. *)
Lemma handle_message_audio_origin s m audio rate channels :
  In (TTSAudioRawFrame audio rate channels) (yielded (handle_message s m)) →
  ∃ d content,
    m = Parsed (PyDict d)
    ∧ py_eq_int (default PyNone (d !! "request_id")) (_request_id s) = true
    ∧ d !! "type" = Some (PyStr "audio")
    ∧ d !! "audio_content" = Some content
    ∧ b64decode content = inr audio.
Proof.
  unfold handle_message, dict_get, dict_item, json_loads, stream_write, py_ne_int.
  intros H. repeat case_match; simplify_eq/=; try tauto.
  - destruct H as [H|[]]. simplify_eq.
    eexists _, _. split_and!; eauto.
    + match goal with H : negb _ = false |- _ => apply negb_false_iff in H; exact H end.
    + match goal with H : py_eq_str _ "audio" = true |- _ =>
        apply py_eq_str_true in H; subst; assumption end.
  - destruct H as [H|[]]. discriminate.
  - destruct H as [H|[]]. discriminate.
Qed.

Lemma receive_loop_audio_origin c s script audio rate channels :
  In (TTSAudioRawFrame audio rate channels) (frames (receive_loop c s script)) →
  ∃ d content,
    In (Delivers (Parsed (PyDict d))) script
    ∧ py_eq_int (default PyNone (d !! "request_id")) (_request_id s) = true
    ∧ d !! "type" = Some (PyStr "audio")
    ∧ d !! "audio_content" = Some content
    ∧ b64decode content = inr audio.
Proof.
  revert s. induction script as [|[m|e] rest IH]; intros s; simpl; try tauto.
  pose proof (handle_message_audio_origin s m audio rate channels) as Hm.
  pose proof (handle_message_request_id s m) as Hid.
  assert (In (TTSAudioRawFrame audio rate channels) (yielded (handle_message s m)) →
          ∃ d content, (Delivers m = Delivers (Parsed (PyDict d)) ∨
                        In (Delivers (Parsed (PyDict d))) rest)
            ∧ py_eq_int (default PyNone (d !! "request_id")) (_request_id s) = true
            ∧ d !! "type" = Some (PyStr "audio")
            ∧ d !! "audio_content" = Some content
            ∧ b64decode content = inr audio) as Hhere.
  { intros H. destruct (Hm H) as (d & content & -> & ?). exists d, content. auto. }
  destruct (ctl (handle_message s m)); simpl; auto.
  rewrite in_app_iff. intros [H|H]; auto.
  destruct (IH _ H) as (d & content & Hin & Hrid & Hrest).
  exists d, content. rewrite Hid in Hrid. auto.
Qed.

(** C3: for an inbound [audio] message with the id of the active request, the
    frame yielded is the [TTSAudioRawFrame] whose bytes are the base64 decoding
    of the message's [audio_content] field (none is yielded if the decoding or
    the playback write raises); and every audio chunk of an invocation carries
    the decoding of the [audio_content] of one of its inbound [audio]
    messages. *)
Theorem audio_chunk_payload :
  (∀ s d content,
     py_eq_int (default PyNone (d !! "request_id")) (_request_id s) = true →
     d !! "type" = Some (PyStr "audio") →
     d !! "audio_content" = Some content →
     yielded (handle_message s (Parsed (PyDict d))) =
       match b64decode content, status (_stream s) with
       | inr audio, Active => [TTSAudioRawFrame audio SAMPLE_RATE 1]
       | _, _ => []
       end)
  ∧ (∀ s text net audio rate channels,
       In (TTSAudioRawFrame audio rate channels) (events (run_tts s text net)) →
       ∃ d content,
         In (Delivers (Parsed (PyDict d))) (inbound net)
         ∧ py_eq_int (default PyNone (d !! "request_id")) (_request_id s + 1) = true
         ∧ d !! "type" = Some (PyStr "audio")
         ∧ d !! "audio_content" = Some content
         ∧ b64decode content = inr audio).
Proof.
  split.
  - intros s d content Hid Hty Hc.
    unfold handle_message, py_ne_int. simpl. rewrite Hid, Hty, Hc. simpl.
    unfold stream_write.
    destruct (b64decode content); [reflexivity|].
    destruct (status (_stream s)); reflexivity.
  - intros s text net audio rate channels.
    destruct (connect net) as [e|c] eqn:Hc.
    { rewrite (run_tts_connect_failed s text net e Hc). simpl. intros [H|[]]. discriminate. }
    destruct (send net) as [e|] eqn:Hs.
    { destruct (run_tts_send_failed s text net c e Hc Hs) as [-> _].
      simpl. intros [H|[]]. discriminate. }
    destruct (run_tts_streaming s text net c Hc Hs) as (-> & _ & _).
    simpl. rewrite in_app_iff. intros [H|[H|H]]; [discriminate| |].
    + exact (receive_loop_audio_origin c (in_flight c s) (inbound net) _ _ _ H).
    + destruct (how _); simpl in H; try tauto.
      destruct H as [H|[]]. discriminate.
Qed.

(** *** Errors reported by the service *)

(** C4 (amended): an [error] message with the id of the active request and the
    message M makes the pass yield one terminal [ErrorFrame] carrying
    ["API Error: "] followed by M (by ["Unknown error"] if the [message] field is
    absent, by the rendering of the field if it is not a string) and leave the
    loop; when it is the first message of an invocation the frames are
    [[TTSStartedFrame; ErrorFrame ("API Error: " ++ M)]] and the generator
    returns. *)
Theorem service_error_reported :
  let text_of d :=
    "API Error: " +:+
    match d !! "message" with
    | Some (PyStr M) => M
    | Some other => py_repr other
    | None => "Unknown error"
    end in
  (∀ s d,
     py_eq_int (default PyNone (d !! "request_id")) (_request_id s) = true →
     d !! "type" = Some (PyStr "error") →
     handle_message s (Parsed (PyDict d)) =
       {| yielded := [ErrorFrame (text_of d)]; issued := []; after := s; ctl := Break |})
  ∧ (∀ s text net c d rest,
       connect net = inr c → send net = None →
       inbound net = Delivers (Parsed (PyDict d)) :: rest →
       py_eq_int (default PyNone (d !! "request_id")) (_request_id s + 1) = true →
       d !! "type" = Some (PyStr "error") →
       events (run_tts s text net) = [TTSStartedFrame; ErrorFrame (text_of d)]
       ∧ ended (run_tts s text net) = true).
Proof.
  assert (∀ s d,
     py_eq_int (default PyNone (d !! "request_id")) (_request_id s) = true →
     d !! "type" = Some (PyStr "error") →
     handle_message s (Parsed (PyDict d)) =
       {| yielded := [ErrorFrame ("API Error: " +:+
                       match d !! "message" with
                       | Some (PyStr M) => M
                       | Some other => py_repr other
                       | None => "Unknown error"
                       end)];
          issued := []; after := s; ctl := Break |}) as Hstep.
  { intros s d Hid Hty. unfold handle_message, py_ne_int. simpl.
    rewrite Hid, Hty. simpl.
    destruct (d !! "message") as [[]|]; reflexivity. }
  split; [exact Hstep|].
  intros s text net c d rest Hc Hs Hin Hid Hty.
  destruct (run_tts_streaming s text net c Hc Hs) as (-> & -> & _).
  rewrite Hin. simpl. rewrite (Hstep (in_flight c s) d Hid Hty). simpl. auto.
Qed.

(** *** The request counter *)

Lemma receive_loop_closed_transport c s script e :
  how (receive_loop c s (script ++ [Fails e])) ≠ Awaiting.
Proof.
  revert s. induction script as [|[m|e'] rest IH]; intros s; simpl; try discriminate.
  destruct (ctl (handle_message s m)); simpl; auto; discriminate.
Qed.

Lemma run_tts_closed_transport s text net e :
  ended (run_tts s text (with_inbound net (inbound net ++ [Fails e]))) = true.
Proof.
  destruct (connect net) as [e'|c] eqn:Hc.
  { rewrite (run_tts_connect_failed s text _ e') by exact Hc. reflexivity. }
  destruct (send net) as [e'|] eqn:Hs.
  { eapply run_tts_send_failed; eauto. }
  destruct (run_tts_streaming s text (with_inbound net (inbound net ++ [Fails e])) c Hc Hs)
    as (_ & -> & _).
  simpl.
  pose proof (receive_loop_closed_transport c (in_flight c s) (inbound net) e).
  destruct (how _); congruence.
Qed.

Lemma run_tts_ended_request_id s text net :
  ended (run_tts s text net) = true →
  _request_id (service_after (run_tts s text net)) = 0.
Proof.
  unfold run_tts. destruct (how (try_block s text net)) as [| |[|d]]; simpl;
    try discriminate; reflexivity.
Qed.

(** C5: once the frame sequence of an invocation has ended, whether by
    [audio_end], by an [error] message, by the loss of the connection or by any
    other exception, [_request_id] is 0; and the sequence does end, with the
    counter at 0, as soon as [recv] raises. *)
Theorem request_id_reset s text net :
  (ended (run_tts s text net) = true →
   _request_id (service_after (run_tts s text net)) = 0)
  ∧ (∀ e, let r := run_tts s text (with_inbound net (inbound net ++ [Fails e])) in
          ended r = true ∧ _request_id (service_after r) = 0).
Proof.
  split.
  - apply run_tts_ended_request_id.
  - intros e. simpl. split.
    + apply run_tts_closed_transport.
    + apply run_tts_ended_request_id, run_tts_closed_transport.
Qed.

(** *** Extending a run that is still waiting *)

Lemma run_tts_awaiting s text net :
  ended (run_tts s text net) = false →
  ∃ c, connect net = inr c ∧ send net = None
       ∧ how (receive_loop c (in_flight c s) (inbound net)) = Awaiting
       ∧ events (run_tts s text net) =
           TTSStartedFrame :: frames (receive_loop c (in_flight c s) (inbound net)).
Proof.
  intros Hw.
  destruct (connect net) as [e|c] eqn:Hc.
  { rewrite (run_tts_connect_failed s text net e Hc) in Hw. discriminate. }
  destruct (send net) as [e|] eqn:Hs.
  { destruct (run_tts_send_failed s text net c e Hc Hs) as [_ He]. congruence. }
  destruct (run_tts_streaming s text net c Hc Hs) as (He & Hd & _).
  exists c. rewrite He. rewrite Hd in Hw.
  destruct (how (receive_loop c (in_flight c s) (inbound net))); try discriminate.
  rewrite app_nil_r. auto.
Qed.

(** A run that is waiting after [pre], continued with a [recv] outcome that
    raises [e] at once, ends with the [ErrorFrame] for [e]. *)
Lemma run_tts_raise_after s text net pre (r : recv) post e :
  ended (run_tts s text (with_inbound net pre)) = false →
  (∀ c s', how (receive_loop c s' (r :: post)) = Raised e
           ∧ frames (receive_loop c s' (r :: post)) = []) →
  events (run_tts s text (with_inbound net (pre ++ r :: post))) =
    events (run_tts s text (with_inbound net pre)) ++ [ErrorFrame (describe e)]
  ∧ ended (run_tts s text (with_inbound net (pre ++ r :: post))) = true.
Proof.
  intros Hw Hr.
  destruct (run_tts_awaiting _ _ _ Hw) as (c & Hc & Hs & Hh & ->).
  simpl in Hc, Hs, Hh |- *.
  destruct (run_tts_streaming s text (with_inbound net (pre ++ r :: post)) c Hc Hs)
    as (-> & -> & _).
  simpl.
  destruct (receive_loop_app c (in_flight c s) pre (r :: post) Hh) as (-> & _ & ->).
  destruct (Hr c (final (receive_loop c (in_flight c s) pre))) as [-> ->].
  rewrite app_nil_r. auto.
Qed.

(** *** Malformed messages *)

(** C7 (amended): a message that [json.loads] cannot parse is reported on the
    console and skipped by the stand-alone client [listen], whose receive loop
    goes on with the next message; [run_tts] instead ends the attempt there,
    with one terminal [ErrorFrame] that carries the text of the parse error,
    and handles no later message. *)
Theorem malformed_message_policy why :
  (∀ k rest,
     let r := listen_loop k (Delivers (Malformed why) :: rest) in
     let r' := listen_loop k rest in
     console_out r = PrintNotJson :: console_out r'
     ∧ client_final r = client_final r'
     ∧ client_how r = client_how r')
  ∧ (∀ s text net pre post,
       ended (run_tts s text (with_inbound net pre)) = false →
       let r := run_tts s text (with_inbound net (pre ++ Delivers (Malformed why) :: post)) in
       events r = events (run_tts s text (with_inbound net pre)) ++ [ErrorFrame why]
       ∧ ended r = true).
Proof.
  split.
  - intros k rest. simpl. auto.
  - intros s text net pre post Hw.
    apply (run_tts_raise_after s text net pre _ post (Exception why) Hw).
    intros c s'. simpl. auto.
Qed.

(** *** Calls on the connection *)

Lemma handle_message_quiet s m : Forall quiet (issued (handle_message s m)).
Proof. step_cases; repeat constructor. Qed.

Lemma receive_loop_quiet c s script : Forall quiet (calls (receive_loop c s script)).
Proof.
  revert s. induction script as [|[m|e] rest IH]; intros s; simpl;
    try (repeat constructor; fail).
  pose proof (handle_message_quiet s m) as Hm.
  destruct (ctl (handle_message s m)); simpl; constructor;
    try (repeat constructor; fail); auto.
  apply Forall_app; auto.
Qed.

Lemma filter_quiet {A} (f : A → bool) (l : list A) :
  Forall (λ x, f x = false) l → List.filter f l = [].
Proof. induction 1 as [|x l Hx _ IH]; simpl; [|rewrite Hx]; auto. Qed.

Lemma try_block_calls s text net :
  ∃ tail,
    Forall quiet tail
    ∧ calls (try_block s text net) =
        Connect URI ("Bearer " +:+ _api_key s) 5 20
        :: match connect net with
           | inl _ => []
           | inr c => [StartTtfbMetrics; Send c (build_request (in_flight c s) text)]
           end ++ tail.
Proof.
  unfold try_block. destruct (connect net) as [e|c]; simpl.
  { exists []. split; [constructor | reflexivity]. }
  fold (in_flight c s). destruct (send net) as [e|]; simpl.
  { exists []. split; [constructor | reflexivity]. }
  eexists (_ :: _). split; [|reflexivity].
  constructor; [repeat constructor | apply receive_loop_quiet].
Qed.

Lemma run_tts_effects s text net :
  ∃ tail,
    Forall quiet tail
    ∧ effects (run_tts s text net) =
        LogDebug ("Generating TTS for: " +:+ text)
        :: Connect URI ("Bearer " +:+ _api_key s) 5 20
        :: match connect net with
           | inl _ => []
           | inr c => [StartTtfbMetrics; Send c (build_request (in_flight c s) text)]
           end ++ tail.
Proof.
  destruct (try_block_calls s text net) as (tail & Hq & Hc).
  unfold run_tts. destruct (how (try_block s text net)) as [| |[|d]]; simpl;
    rewrite Hc; try (exists tail; split; [assumption | reflexivity]).
  exists (tail ++ [LogError ("Error during TTS: " +:+ d)]). split.
  - apply Forall_app. split; [assumption | repeat constructor].
  - simpl. f_equal. rewrite <- app_assoc. reflexivity.
Qed.

Lemma run_tts_connects_once s text net :
  length (List.filter is_connect (effects (run_tts s text net))) = 1%nat.
Proof.
  destruct (run_tts_effects s text net) as (tail & Hq & ->).
  assert (List.filter is_connect tail = []) as Ht.
  { apply filter_quiet. eapply Forall_impl; [exact Hq|]. intros ? (? & _); auto. }
  destruct (connect net); simpl; rewrite Ht; reflexivity.
Qed.

(** C8 (amended): [run_tts] calls [websockets.connect] once per invocation and
    never again (no retry).  If the connection cannot be established the frames
    are exactly one [ErrorFrame] and the generator returns; if [recv] raises
    [ConnectionClosed] in mid-stream the frames yielded so far are followed by
    exactly one [ErrorFrame], which carries the fixed text
    ["Connection closed unexpectedly"], and the generator returns. *)
Theorem connection_failure_reported s text net :
  length (List.filter is_connect (effects (run_tts s text net))) = 1%nat
  ∧ (∀ e, connect net = inl e →
          events (run_tts s text net) = [ErrorFrame (describe e)]
          ∧ ended (run_tts s text net) = true)
  ∧ (∀ pre post,
       ended (run_tts s text (with_inbound net pre)) = false →
       let r := run_tts s text (with_inbound net (pre ++ Fails ConnectionClosed :: post)) in
       events r = events (run_tts s text (with_inbound net pre))
                  ++ [ErrorFrame "Connection closed unexpectedly"]
       ∧ List.filter is_error (events r) = [ErrorFrame "Connection closed unexpectedly"]
       ∧ ended r = true).
Proof.
  split; [apply run_tts_connects_once|]. split.
  - intros e Hc. rewrite (run_tts_connect_failed s text net e Hc). auto.
  - intros pre post Hw. simpl.
    destruct (run_tts_raise_after s text net pre (Fails ConnectionClosed) post
                ConnectionClosed Hw) as [He Hd].
    { intros c s'. simpl. auto. }
    split_and!; auto.
    rewrite He. simpl.
    destruct (run_tts_awaiting _ _ _ Hw) as (c & _ & _ & Hh & ->). simpl in Hh |- *.
    pose proof (receive_loop_frames c (in_flight c s) pre) as Hf. rewrite Hh in Hf.
    rewrite List.filter_app. simpl.
    rewrite (filter_quiet is_error); [reflexivity|].
    eapply Forall_impl; [exact Hf|]. intros [] ?; simpl in *; congruence.
Qed.

(** *** What an invocation does to the connection *)

Lemma handle_message_conn s m :
  _websocket (after (handle_message s m)) = _websocket s
  ∧ open_conns (after (handle_message s m)) = open_conns s
  ∧ ctl (handle_message s m) ≠ Raise ConnectionClosed.
Proof.
  unfold handle_message, dict_get, dict_item, json_loads, stream_write,
    AttributeError_get, KeyError, TypeError_subscript.
  repeat case_match; simplify_eq/=; auto.
Qed.

Lemma receive_loop_conn c s script :
  _websocket (final (receive_loop c s script)) = _websocket s
  ∧ (open_conns (final (receive_loop c s script)) = open_conns s
     ∨ how (receive_loop c s script) = Raised ConnectionClosed).
Proof.
  revert s. induction script as [|[m|e] rest IH]; intros s; simpl; auto.
  - destruct (handle_message_conn s m) as (Hw & Ho & Hn).
    destruct (ctl (handle_message s m)); simpl; auto.
    destruct (IH (after (handle_message s m))) as [-> Hopen].
    rewrite <- Hw, <- Ho. auto.
  - destruct e; simpl; auto.
Qed.

Lemma run_tts_connection s text net c :
  connect net = inr c →
  _websocket (service_after (run_tts s text net)) = Some c
  ∧ (c ∈ open_conns (service_after (run_tts s text net))
     ∨ In (ErrorFrame "Connection closed unexpectedly") (events (run_tts s text net))).
Proof.
  intros Hc.
  destruct (send net) as [e|] eqn:Hs.
  { unfold run_tts, try_block. rewrite Hc, Hs. destruct e; simpl; split; auto.
    left. apply elem_of_union_l, elem_of_singleton. reflexivity. }
  destruct (run_tts_streaming s text net c Hc Hs) as (-> & _ & ->).
  destruct (receive_loop_conn c (in_flight c s) (inbound net)) as [Hw Hopen].
  assert (c ∈ open_conns (in_flight c s)) as Hin.
  { simpl. apply elem_of_union_l, elem_of_singleton. reflexivity. }
  destruct (how (receive_loop c (in_flight c s) (inbound net))) as [| |e] eqn:Hh;
    simpl; rewrite ?Hw; (split; [reflexivity|]).
  - destruct Hopen as [Ho|Ho]; [rewrite Ho; auto | discriminate].
  - destruct Hopen as [Ho|Ho]; [rewrite Ho; auto | discriminate].
  - destruct Hopen as [Ho|Ho]; [rewrite Ho; auto|].
    right. right. rewrite in_app_iff. right. injection Ho as ->. simpl. auto.
Qed.

(** C9 (amended): every invocation of [run_tts] calls [websockets.connect], once,
    whether or not the service already holds an open connection, and never
    closes a connection.  If the connection is made it replaces the one held in
    [_websocket]; [_request_id] is incremented and put into the request;
    exactly one request is sent, as one message, on the new connection; and
    the connection is still open afterwards unless the run reported that it was
    closed.  If the connection is not made nothing is sent. *)
Theorem run_tts_side_effects s text net :
  let r := run_tts s text net in
  length (List.filter is_connect (effects r)) = 1%nat
  ∧ List.filter is_ws_close (effects r) = []
  ∧ match connect net with
    | inl _ =>
        List.filter is_send (effects r) = []
        ∧ _websocket (service_after r) = _websocket s
    | inr c =>
        List.filter is_send (effects r) = [Send c (build_request (in_flight c s) text)]
        ∧ _request_id (in_flight c s) = _request_id s + 1
        ∧ In ("request_id", PyInt (_request_id s + 1)) (build_request (in_flight c s) text)
        ∧ _websocket (service_after r) = Some c
        ∧ (c ∈ open_conns (service_after r)
           ∨ In (ErrorFrame "Connection closed unexpectedly") (events r))
    end.
Proof.
  simpl. split; [apply run_tts_connects_once|].
  destruct (run_tts_effects s text net) as (tail & Hq & Heff).
  assert (List.filter is_ws_close tail = [] ∧ List.filter is_send tail = []) as [Hcl Hsd].
  { split; apply filter_quiet; (eapply Forall_impl; [exact Hq|]); intros ? (? & ? & ?); auto. }
  split.
  { rewrite Heff. destruct (connect net); simpl; exact Hcl. }
  destruct (connect net) as [e|c] eqn:Hc.
  - split.
    + rewrite Heff. simpl. exact Hsd.
    + rewrite (run_tts_connect_failed s text net e Hc). reflexivity.
  - destruct (run_tts_connection s text net c Hc) as [Hw Hopen].
    split_and!; auto.
    + rewrite Heff. simpl. rewrite Hsd. reflexivity.
    + unfold build_request. simpl. tauto.
Qed.

(** *** [stop] *)

Lemma close_stop_stream (st : stream) :
  close_stream (stop_stream (close_stream (stop_stream st))) = close_stream (stop_stream st).
Proof. destruct st as [[] ?]; reflexivity. Qed.

Lemma stop_stop s f : stop (fst (stop s f)) f = stop s f.
Proof.
  unfold stop. destruct s as [? ? ? ? [c|] ? ? st conns]; simpl;
    unfold terminate, set_stream, drop_conn; simpl; rewrite close_stop_stream.
  - rewrite difference_twice_L. reflexivity.
  - reflexivity.
Qed.

Lemma stop_times_S n s f :
  stop_times (S n) s f = (fst (stop s f), concat (replicate (S n) (snd (stop s f)))).
Proof.
  induction n as [|n IH].
  - simpl. destruct (stop s f) as [s1 c1]. simpl. rewrite !app_nil_r. reflexivity.
  - change (stop_times (S (S n)) s f)
      with (let '(s1, c1) := stop s f in
            let '(s2, c2) := stop_times (S n) s1 f in (s2, c1 ++ c2)).
    pose proof (stop_stop s f) as Hss.
    destruct (stop s f) as [s1 c1] eqn:Hst. simpl in Hss.
    assert (stop_times (S n) s1 f = (s1, concat (replicate (S n) c1))) as ->.
    { clear IH. induction n as [|n IH].
      - simpl. rewrite Hss. rewrite !app_nil_r. reflexivity.
      - change (stop_times (S (S n)) s1 f)
          with (let '(s1', c1') := stop s1 f in
                let '(s2, c2) := stop_times (S n) s1' f in (s2, c1' ++ c2)).
        rewrite Hss, IH. reflexivity. }
    reflexivity.
Qed.

(** The state [stop] leaves, in the model where the release calls return. *)
Lemma stop_times_state s f n :
  (1 ≤ n)%nat →
  fst (stop_times n s f) = fst (stop s f)
  ∧ snd (stop_times n s f) = concat (replicate n (snd (stop s f)))
  ∧ status (_stream (fst (stop s f))) = Closed
  ∧ _pyaudio (fst (stop s f)) = false
  ∧ (∀ c, _websocket s = Some c → c ∉ open_conns (fst (stop s f)))
  ∧ (_websocket s = None →
     snd (stop s f) =
       [StreamStop; StreamClose; PyAudioTerminate; SuperStop (default EndFrame f)]).
Proof.
  intros Hn. destruct n as [|n]; [lia|].
  rewrite stop_times_S. simpl fst. simpl snd.
  split_and!; auto.
  - unfold stop. destruct (_websocket s); reflexivity.
  - unfold stop. destruct (_websocket s); reflexivity.
  - intros c Hc. unfold stop. rewrite Hc. simpl.
    rewrite elem_of_difference, elem_of_singleton. tauto.
  - intros Hc. unfold stop. rewrite Hc. reflexivity.
Qed.

(** *** [stop], when the release calls may raise *)

Section Release.
Context {W : Type} {P : collaborators W}.








End Release.






End Properties.

(** * Further properties of the two programs *)

Section Coverage.
Context `{RT : runtime}.

Implicit Types (s : service) (m : message) (c : conn) (d : gmap string pyvalue).

Ltac pass_cases :=
  unfold handle_message, dict_get, dict_item, json_loads, stream_write in *;
  repeat case_match; simplify_eq/=.

(** *** The request *)

(** X1: the request of [run_tts] has the eight fixed fields, in order, then
    [speed] and [pitch] exactly when the parameter is set; no key occurs twice
    and no field is [None]. *)
Theorem request_fields s text :
  keys (build_request s text) =
    ["voice_uuid"; "project_uuid"; "data"; "sample_rate"; "precision";
     "no_audio_header"; "request_id"; "binary_response"]
    ++ match speed (_params s) with Some _ => ["speed"] | None => [] end
    ++ match pitch (_params s) with Some _ => ["pitch"] | None => [] end
  ∧ NoDup (keys (build_request s text))
  ∧ Forall (λ kv, kv.2 ≠ PyNone) (build_request s text).
Proof.
  unfold build_request, keys, optional_field.
  destruct (speed (_params s)), (pitch (_params s)); simpl;
    (split; [reflexivity|]);
    (split; [apply (bool_decide_unpack _); vm_compute; exact I
            | repeat constructor; discriminate]).
Qed.

(** *** What a pass does to the service *)

Lemma stream_eta (st : stream) :
  st = {| status := status st; played := played st ++ [] |}.
Proof. destruct st. simpl. rewrite app_nil_r. reflexivity. Qed.

Lemma handle_message_played s m :
  _stream (after (handle_message s m)) =
    {| status := status (_stream s);
       played := played (_stream s) ++ payloads (yielded (handle_message s m)) |}
  ∧ same_settings s (after (handle_message s m))
  ∧ _websocket (after (handle_message s m)) = _websocket s.
Proof.
  unfold same_settings.
  pass_cases; repeat split;
    try (match goal with H : status _ = _ |- _ => rewrite <- H end);
    try apply stream_eta; reflexivity.
Qed.

Lemma same_settings_trans s1 s2 s3 :
  same_settings s1 s2 → same_settings s2 s3 → same_settings s1 s3.
Proof. unfold same_settings. intros (?&?&?&?&?&?) (?&?&?&?&?&?). split_and!; congruence. Qed.

Lemma same_settings_refl s : same_settings s s.
Proof. unfold same_settings. auto 10. Qed.

Lemma payloads_app fs gs : payloads (fs ++ gs) = payloads fs ++ payloads gs.
Proof. unfold payloads. apply flat_map_app. Qed.

Lemma receive_loop_played c s script :
  _stream (final (receive_loop c s script)) =
    {| status := status (_stream s);
       played := played (_stream s) ++ payloads (frames (receive_loop c s script)) |}
  ∧ same_settings s (final (receive_loop c s script)).
Proof.
  revert s. induction script as [|[m|e] rest IH]; intros s; simpl.
  - split; [apply stream_eta | apply same_settings_refl].
  - destruct (handle_message_played s m) as (Hst & Hsame & _).
    destruct (ctl (handle_message s m)); simpl; auto.
    destruct (IH (after (handle_message s m))) as [Hst' Hsame'].
    split; [|eapply same_settings_trans; eauto].
    rewrite Hst', Hst. simpl. rewrite payloads_app, app_assoc. reflexivity.
  - destruct e; simpl; (split; [apply stream_eta | unfold same_settings; simpl; auto 10]).
Qed.

(** X2: the playback stream has been handed exactly the audio of the chunks an
    invocation yielded, in the order of the frames (each chunk is written
    before it is yielded, nothing else is written), and the invocation changes
    neither the credentials, the voice, the project, the parameters nor the
    state of the audio device. *)
Theorem playback_log s text net :
  played (_stream (service_after (run_tts s text net))) =
    played (_stream s) ++ payloads (events (run_tts s text net))
  ∧ same_settings s (service_after (run_tts s text net)).
Proof.
  destruct (connect net) as [e|c] eqn:Hc.
  { rewrite (run_tts_connect_failed s text net e Hc). simpl.
    rewrite app_nil_r. split; [reflexivity | unfold same_settings; simpl; auto 10]. }
  destruct (send net) as [e|] eqn:Hs.
  { unfold run_tts, try_block. rewrite Hc, Hs.
    destruct e; simpl; rewrite app_nil_r;
      (split; [reflexivity | unfold same_settings; simpl; auto 10]). }
  destruct (run_tts_streaming s text net c Hc Hs) as (-> & _ & ->).
  destruct (receive_loop_played c (in_flight c s) (inbound net)) as [Hst Hsame].
  assert (same_settings s (in_flight c s)) as H0 by (unfold same_settings; simpl; auto 10).
  pose proof (same_settings_trans _ _ _ H0 Hsame) as Hall.
  change (TTSStartedFrame :: ?l) with ([TTSStartedFrame] ++ l).
  rewrite !payloads_app.
  destruct (how (receive_loop c (in_flight c s) (inbound net))); simpl;
    rewrite Hst; simpl; rewrite ?app_nil_r;
    (split; [reflexivity | exact Hall]).
Qed.

(** *** A service whose stream is not active *)

Lemma receive_loop_inactive c s script :
  status (_stream s) ≠ Active →
  payloads (frames (receive_loop c s script)) = [].
Proof.
  revert s. induction script as [|[m|e] rest IH]; intros s Hst; simpl; auto.
  destruct (handle_message_played s m) as (_ & (_ & _ & _ & _ & _ & Hsame) & _).
  assert (payloads (yielded (handle_message s m)) = []) as Hy.
  { clear IH Hsame. pass_cases; try reflexivity; congruence. }
  destruct (ctl (handle_message s m)); simpl; auto.
  rewrite payloads_app, Hy, IH; [reflexivity|]. rewrite <- Hsame. exact Hst.
Qed.

(** *** Continuing a run *)

Lemma receive_loop_done c s pre rest :
  how (receive_loop c s pre) ≠ Awaiting →
  receive_loop c s (pre ++ rest) = receive_loop c s pre.
Proof.
  revert s. induction pre as [|[m|e] pre IH]; intros s; simpl.
  - congruence.
  - destruct (ctl (handle_message s m)); simpl; auto.
    intros H. rewrite IH by exact H. reflexivity.
  - reflexivity.
Qed.

(** A run that is waiting after [pre] resumes, when more arrives, in a
    service with the same active request and the same stream status. *)
Lemma run_tts_resume s text net pre rest :
  ended (run_tts s text (with_inbound net pre)) = false →
  ∃ c s',
    _request_id s' = _request_id s + 1
    ∧ status (_stream s') = status (_stream s)
    ∧ events (run_tts s text (with_inbound net (pre ++ rest))) =
        events (run_tts s text (with_inbound net pre))
        ++ frames (receive_loop c s' rest)
        ++ match how (receive_loop c s' rest) with
           | Raised e => [ErrorFrame (describe e)]
           | _ => []
           end
    ∧ ended (run_tts s text (with_inbound net (pre ++ rest))) =
        match how (receive_loop c s' rest) with Awaiting => false | _ => true end.
Proof.
  intros Hw.
  destruct (run_tts_awaiting _ _ _ Hw) as (c & Hc & Hs & Hh & ->).
  simpl in Hc, Hs, Hh |- *.
  exists c, (final (receive_loop c (in_flight c s) pre)).
  destruct (run_tts_streaming s text (with_inbound net (pre ++ rest)) c Hc Hs)
    as (-> & -> & _).
  simpl.
  destruct (receive_loop_app c (in_flight c s) pre rest Hh) as (-> & _ & ->).
  destruct (receive_loop_played c (in_flight c s) pre) as [_ (_&_&_&_&_&Hst)].
  split_and!.
  - rewrite receive_loop_request_id. reflexivity.
  - rewrite <- Hst. reflexivity.
  - simpl. rewrite <- app_assoc. reflexivity.
  - reflexivity.
Qed.

(** X3: frames are yielded as the messages arrive.  The frames of an invocation
    on the messages received so far are an initial segment of its frames on
    any continuation of them; and once the generator has returned, whatever
    arrives later is never received: result, calls and service are the
    same. *)
Theorem events_grow s text net pre rest :
  events (run_tts s text (with_inbound net pre))
    `prefix_of` events (run_tts s text (with_inbound net (pre ++ rest)))
  ∧ (ended (run_tts s text (with_inbound net pre)) = true →
     run_tts s text (with_inbound net (pre ++ rest))
     = run_tts s text (with_inbound net pre)).
Proof.
  destruct (ended (run_tts s text (with_inbound net pre))) eqn:He.
  - assert (run_tts s text (with_inbound net (pre ++ rest))
            = run_tts s text (with_inbound net pre)) as Heq.
    { revert He. unfold run_tts, try_block. simpl.
      destruct (connect net) as [e|c]; [reflexivity|].
      destruct (send net) as [e|]; [reflexivity|].
      simpl.
      destruct (how (receive_loop c _ pre)) eqn:Hh; simpl; try discriminate;
        intros _; rewrite receive_loop_done by congruence; rewrite Hh; reflexivity. }
    rewrite Heq. split; [reflexivity | auto].
  - destruct (run_tts_resume s text net pre rest He) as (c & s' & _ & _ & -> & _).
    split; [apply prefix_app_r; reflexivity | discriminate].
Qed.

(** X4: on a service whose playback stream is not active (as after [stop]) an
    invocation yields no audio chunk, and the first [audio] message for the
    active request whose content decodes ends it with the [ErrorFrame] that
    carries the write error of the stream. *)
Theorem inactive_stream_no_audio s text net :
  status (_stream s) ≠ Active →
  payloads (events (run_tts s text net)) = []
  ∧ (∀ pre post d content audio,
       ended (run_tts s text (with_inbound net pre)) = false →
       py_eq_int (default PyNone (d !! "request_id")) (_request_id s + 1) = true →
       d !! "type" = Some (PyStr "audio") →
       d !! "audio_content" = Some content →
       b64decode content = inr audio →
       let r := run_tts s text
                  (with_inbound net (pre ++ Delivers (Parsed (PyDict d)) :: post)) in
       events r = events (run_tts s text (with_inbound net pre))
                  ++ [ErrorFrame (write_error (status (_stream s)))]
       ∧ ended r = true).
Proof.
  intros Hst. split.
  - destruct (connect net) as [e|c] eqn:Hc.
    { rewrite (run_tts_connect_failed s text net e Hc). reflexivity. }
    destruct (send net) as [e|] eqn:Hs.
    { destruct (run_tts_send_failed s text net c e Hc Hs) as [-> _]. reflexivity. }
    destruct (run_tts_streaming s text net c Hc Hs) as (-> & _ & _).
    change (TTSStartedFrame :: ?l) with ([TTSStartedFrame] ++ l).
    rewrite !payloads_app, receive_loop_inactive by exact Hst.
    destruct (how _); reflexivity.
  - intros pre post d content audio Hw Hid Hty Hct Hdec. simpl.
    destruct (run_tts_resume s text net pre (Delivers (Parsed (PyDict d)) :: post) Hw)
      as (c & s' & Hrid & Hst' & -> & ->).
    simpl. unfold handle_message, py_ne_int, stream_write. simpl.
    rewrite Hrid, Hid, Hty, Hct. simpl. rewrite Hdec, Hst'.
    destruct (status (_stream s)) eqn:E; [congruence| |]; simpl; auto.
Qed.

(** *** Messages that are skipped, and messages that end the attempt *)

Lemma receive_loop_skip_silent c s pre post m :
  (∀ s', handle_message s' m = silent s') →
  let a := receive_loop c s (pre ++ Delivers m :: post) in
  let b := receive_loop c s (pre ++ post) in
  frames a = frames b ∧ final a = final b ∧ how a = how b.
Proof.
  intros Hm. revert s. induction pre as [|[m'|e] pre IH]; intros s; simpl.
  - rewrite Hm. simpl. auto.
  - destruct (ctl (handle_message s m')); simpl; auto.
    destruct (IH (after (handle_message s m'))) as (-> & -> & ->). auto.
  - auto.
Qed.

Lemma run_tts_skip_silent s text net pre post m :
  (∀ s', handle_message s' m = silent s') →
  let r1 := run_tts s text (with_inbound net (pre ++ Delivers m :: post)) in
  let r2 := run_tts s text (with_inbound net (pre ++ post)) in
  events r1 = events r2 ∧ service_after r1 = service_after r2 ∧ ended r1 = ended r2.
Proof.
  intros Hm. simpl.
  destruct (connect net) as [e|c] eqn:Hc.
  { rewrite !(run_tts_connect_failed s text _ e) by exact Hc. auto. }
  destruct (send net) as [e|] eqn:Hs.
  { unfold run_tts, try_block. simpl. rewrite Hc, Hs. destruct e; auto. }
  destruct (run_tts_streaming s text (with_inbound net (pre ++ Delivers m :: post)) c Hc Hs)
    as (-> & -> & ->).
  destruct (run_tts_streaming s text (with_inbound net (pre ++ post)) c Hc Hs)
    as (-> & -> & ->).
  simpl.
  destruct (receive_loop_skip_silent c (in_flight c s) pre post m Hm) as (-> & -> & ->).
  auto.
Qed.

(** X5: a JSON object whose [type] is none of ["audio"], ["audio_end"] and
    ["error"] raises nothing: whatever its [request_id], the pass yields no
    frame, makes no call and goes on, and the invocation behaves as if the
    message had not arrived. *)
Theorem unknown_type_ignored d ty :
  d !! "type" = Some ty →
  py_eq_str ty "audio" = false →
  py_eq_str ty "audio_end" = false →
  py_eq_str ty "error" = false →
  (∀ s, handle_message s (Parsed (PyDict d)) = silent s)
  ∧ (∀ s text net pre post,
       let r1 := run_tts s text
                   (with_inbound net (pre ++ Delivers (Parsed (PyDict d)) :: post)) in
       let r2 := run_tts s text (with_inbound net (pre ++ post)) in
       events r1 = events r2 ∧ service_after r1 = service_after r2
       ∧ ended r1 = ended r2).
Proof.
  intros Hty H1 H2 H3.
  assert (∀ s, handle_message s (Parsed (PyDict d)) = silent s) as Hm.
  { intros s. unfold handle_message. simpl. rewrite Hty, H1, H2, H3.
    destruct (py_ne_int _ _); reflexivity. }
  split; [exact Hm|].
  intros s text net pre post. apply run_tts_skip_silent. exact Hm.
Qed.

(** X6: an inbound message that is valid JSON but not an object (a list, a
    string, a number, [true], [null]) ends the attempt: the frames yielded so
    far are followed by one [ErrorFrame] carrying the text of the
    [AttributeError] of [data.get], and the generator returns. *)
Theorem non_object_message_fails s text net pre post v :
  is_object v = false →
  ended (run_tts s text (with_inbound net pre)) = false →
  let r := run_tts s text (with_inbound net (pre ++ Delivers (Parsed v) :: post)) in
  events r = events (run_tts s text (with_inbound net pre))
             ++ [ErrorFrame ("'" +:+ type_name v +:+ "' object has no attribute 'get'")]
  ∧ ended r = true.
Proof.
  intros Hv Hw.
  apply (run_tts_raise_after s text net pre _ post (AttributeError_get v) Hw).
  intros c s'. simpl. unfold handle_message. simpl.
  destruct v; simpl; try discriminate; auto.
Qed.

(** X7: a JSON object for the active request that lacks the [type] field ends
    the attempt with the [ErrorFrame] ["'type'"], and an [audio] message that
    lacks [audio_content] ends it with ["'audio_content'"] (the text of the
    [KeyError]); no later message is handled. *)
Theorem missing_field_fails s text net pre post d :
  ended (run_tts s text (with_inbound net pre)) = false →
  py_eq_int (default PyNone (d !! "request_id")) (_request_id s + 1) = true →
  let r := run_tts s text
             (with_inbound net (pre ++ Delivers (Parsed (PyDict d)) :: post)) in
  (d !! "type" = None →
   events r = events (run_tts s text (with_inbound net pre)) ++ [ErrorFrame "'type'"]
   ∧ ended r = true)
  ∧ (d !! "type" = Some (PyStr "audio") → d !! "audio_content" = None →
     events r = events (run_tts s text (with_inbound net pre))
                ++ [ErrorFrame "'audio_content'"]
     ∧ ended r = true).
Proof.
  intros Hw Hid. simpl.
  destruct (run_tts_resume s text net pre (Delivers (Parsed (PyDict d)) :: post) Hw)
    as (c & s' & Hrid & _ & -> & ->).
  simpl. unfold handle_message, py_ne_int. simpl. rewrite Hrid, Hid. simpl.
  split.
  - intros ->. simpl. auto.
  - intros -> Hc. simpl. rewrite Hc. simpl. auto.
Qed.

(** *** Request ids across invocations *)

(** X8: request ids are not unique across invocations.  After an invocation
    that has ended, the next one sends [request_id] 1 whatever came before,
    and it accepts a message tagged 1: an [audio_end] tagged 1 that arrives
    first ends it with [[TTSStartedFrame; TTSStoppedFrame]]. *)
Theorem request_id_repeats s text net text' net' c' :
  ended (run_tts s text net) = true →
  connect net' = inr c' →
  let s1 := service_after (run_tts s text net) in
  (List.filter is_send (effects (run_tts s1 text' net'))
   = [Send c' (build_request (in_flight c' s1) text')]
   ∧ In ("request_id", PyInt 1) (build_request (in_flight c' s1) text'))
  ∧ (∀ d rest,
       send net' = None →
       inbound net' = Delivers (Parsed (PyDict d)) :: rest →
       d !! "request_id" = Some (PyInt 1) →
       d !! "type" = Some (PyStr "audio_end") →
       events (run_tts s1 text' net') = [TTSStartedFrame; TTSStoppedFrame]
       ∧ ended (run_tts s1 text' net') = true).
Proof.
  intros He Hc. simpl.
  pose proof (run_tts_ended_request_id s text net He) as H0.
  split.
  - split.
    + destruct (run_tts_effects (service_after (run_tts s text net)) text' net')
        as (tail & Hq & ->).
      rewrite Hc. simpl.
      rewrite (filter_quiet is_send tail); [reflexivity|].
      eapply Forall_impl; [exact Hq|]. intros ? (? & ? & ?); auto.
    + unfold build_request. simpl. rewrite H0. simpl. tauto.
  - intros d rest Hs Hin Hid Hty.
    destruct (run_tts_streaming (service_after (run_tts s text net)) text' net' c' Hc Hs)
      as (-> & -> & _).
    rewrite Hin. simpl. unfold handle_message, py_ne_int. simpl.
    rewrite Hid, Hty, H0. simpl. auto.
Qed.

(** *** [run_tts], then [stop] *)

Lemma receive_loop_open c s script :
  open_conns (final (receive_loop c s script)) = open_conns s
  ∨ open_conns (final (receive_loop c s script)) = open_conns s ∖ {[c]}.
Proof.
  revert s. induction script as [|[m|e] rest IH]; intros s; simpl; auto.
  - destruct (handle_message_conn s m) as (_ & Ho & _).
    destruct (ctl (handle_message s m)); simpl; auto.
    rewrite <- Ho. apply IH.
  - destruct e; simpl; auto.
Qed.

Lemma run_tts_open s text net c :
  connect net = inr c →
  open_conns (service_after (run_tts s text net)) = {[c]} ∪ open_conns s
  ∨ open_conns (service_after (run_tts s text net)) = ({[c]} ∪ open_conns s) ∖ {[c]}.
Proof.
  intros Hc.
  destruct (send net) as [e|] eqn:Hs.
  { unfold run_tts, try_block. rewrite Hc, Hs. destruct e; simpl; auto. }
  destruct (run_tts_streaming s text net c Hc Hs) as (_ & _ & ->).
  destruct (receive_loop_open c (in_flight c s) (inbound net)) as [H|H];
    destruct (how _); simpl; rewrite H; auto.
Qed.

(** X9: [stop] after an invocation closes the connection that invocation
    opened, and only that one: the open connections are those open before the
    invocation, less the new one.  A connection the service held before, and
    that the invocation replaced, is closed neither by [run_tts] nor by
    [stop]. *)
Theorem stop_after_run s text net c f :
  connect net = inr c →
  let s' := fst (stop (service_after (run_tts s text net)) f) in
  open_conns s' = open_conns s ∖ {[c]}
  ∧ (∀ c0, c0 ∈ open_conns s → c0 ≠ c → c0 ∈ open_conns s')
  ∧ (∃ tail, snd (stop (service_after (run_tts s text net)) f) = WsClose c :: tail).
Proof.
  intros Hc. simpl.
  destruct (run_tts_connection s text net c Hc) as [Hw _].
  assert (open_conns (fst (stop (service_after (run_tts s text net)) f))
          = open_conns s ∖ {[c]}) as Hopen.
  { unfold stop. rewrite Hw. simpl.
    destruct (run_tts_open s text net c Hc) as [-> | ->]; apply set_eq; intros x;
      rewrite !elem_of_difference, elem_of_union, elem_of_singleton; tauto. }
  split_and!.
  - exact Hopen.
  - intros c0 Hin Hne. rewrite Hopen, elem_of_difference, elem_of_singleton. auto.
  - unfold stop. rewrite Hw. simpl. eauto.
Qed.

(** *** The stand-alone client *)

Lemma listen_message_retag k v d :
  listen_message k (Parsed (PyDict (<["request_id" := v]> d)))
  = listen_message k (Parsed (PyDict d)).
Proof.
  unfold listen_message, listen_try. simpl.
  rewrite !lookup_insert_ne by discriminate. reflexivity.
Qed.

(** X10: the stand-alone client does not look at [request_id]: whatever value
    the field is given in the inbound messages, what [listen] prints, plays
    and does is the same. *)
Theorem listen_ignores_request_id k v script :
  listen_loop k (map (retag v) script) = listen_loop k script.
Proof.
  revert k. induction script as [|r rest IH]; intros k; [reflexivity|].
  destruct r as [[why|data]|e]; simpl; try (rewrite IH; reflexivity); try reflexivity.
  destruct data; simpl; try (rewrite IH; reflexivity).
  rewrite listen_message_retag.
  destruct (client_ctl (listen_message k (Parsed (PyDict d)))); simpl;
    rewrite ?IH; reflexivity.
Qed.

Lemma listen_message_goes_on k m e : client_ctl (listen_message k m) ≠ Raise e.
Proof.
  unfold listen_message.
  destruct (client_ctl (listen_try k m)) eqn:E; simpl; rewrite ?E; discriminate.
Qed.

(** X11: nothing an inbound message contains makes the receive loop of
    [listen] stop with an exception: the loop is left by an exception only
    when [recv] itself raises it.  A message that is valid JSON but not an
    object, or an object without [type], is answered like text that is not
    JSON, by the notice "Expected json but did not receive json." *)
Theorem listen_swallows_errors k :
  (∀ script e, client_how (listen_loop k script) = Raised e → In (Fails e) script)
  ∧ (∀ v, is_object v = false →
          listen_message k (Parsed v) =
            {| printed := [PrintNotJson]; client_after := k; client_ctl := Continue |})
  ∧ (∀ d, d !! "type" = None →
          listen_message k (Parsed (PyDict d)) =
            {| printed := [PrintNotJson]; client_after := k; client_ctl := Continue |}).
Proof.
  split_and!.
  - intros script. revert k. induction script as [|[m|e'] rest IH]; intros k e; simpl.
    + discriminate.
    + pose proof (listen_message_goes_on k m) as Hgo.
      destruct (client_ctl (listen_message k m)) eqn:E; simpl.
      * intros H. right. eapply IH. exact H.
      * discriminate.
      * exfalso. eapply Hgo. reflexivity.
    + intros H. left. congruence.
  - intros v Hv. unfold listen_message, listen_try. destruct v; simpl; try discriminate;
      reflexivity.
  - intros d Hd. unfold listen_message, listen_try. simpl. rewrite Hd. reflexivity.
Qed.

Lemma listen_message_ttfs k m :
  List.filter is_ttfs (printed (listen_message k m)) = []
  ∧ first_byte (client_after (listen_message k m)) = first_byte k
  ∨ List.filter is_ttfs (printed (listen_message k m)) = []
    ∧ first_byte (client_after (listen_message k m)) = true
  ∨ List.filter is_ttfs (printed (listen_message k m)) = [PrintTTFS]
    ∧ first_byte k = false
    ∧ first_byte (client_after (listen_message k m)) = true.
Proof.
  unfold listen_message, listen_try, dict_item, json_loads, stream_write.
  destruct k as [[] st]; repeat case_match; simplify_eq/=; auto.
Qed.

Lemma listen_loop_ttfs k script :
  (length (List.filter is_ttfs (console_out (listen_loop k script)))
   ≤ if first_byte k then 0 else 1)%nat.
Proof.
  revert k. induction script as [|[m|e] rest IH]; intros k; simpl; try lia.
  - pose proof (listen_message_ttfs k m) as Hm.
    destruct (client_ctl (listen_message k m)); simpl.
    + rewrite List.filter_app, length_app.
      specialize (IH (client_after (listen_message k m))).
      destruct Hm as [[-> Hf]|[[-> Hf]|(-> & Hk & Hf)]]; rewrite Hf in IH; simpl;
        try rewrite Hk; destruct (first_byte k); simpl in *; lia.
    + destruct Hm as [[-> Hf]|[[-> Hf]|(-> & Hk & Hf)]]; simpl;
        try rewrite Hk; destruct (first_byte k); simpl; lia.
    + destruct Hm as [[-> Hf]|[[-> Hf]|(-> & Hk & Hf)]]; simpl;
        try rewrite Hk; destruct (first_byte k); simpl; lia.
Qed.

(** X12: [listen] prints the time to the first sound at most once for each
    request it has sent. *)
Theorem ttfs_once_per_request st turns script :
  (length (List.filter is_ttfs (shown (listen_turns st turns script)))
   ≤ length (asked (listen_turns st turns script)))%nat.
Proof.
  revert st script. induction turns as [|t later IH]; intros st script; simpl; [lia|].
  destruct (ping t); simpl; [lia|].
  destruct (typed_line t); simpl; [lia|].
  destruct (sending t); simpl; [lia|].
  pose proof (listen_loop_ttfs {| first_byte := false; out := st |} script) as Hin.
  simpl in Hin.
  destruct (client_how (listen_loop _ script)); simpl; try lia.
  rewrite List.filter_app, length_app.
  specialize (IH (out (client_final (listen_loop {| first_byte := false; out := st |} script)))
                 (unread {| first_byte := false; out := st |} script)).
  lia.
Qed.

Lemma listen_message_break k m :
  client_ctl (listen_message k m) = Break → is_audio_end (Delivers m) = true.
Proof.
  unfold listen_message, listen_try, dict_item, json_loads, stream_write, is_audio_end.
  repeat case_match; simplify_eq/=; try discriminate; auto.
Qed.

Lemma unread_audio_end k script :
  client_how (listen_loop k script) = Completed →
  (S (length (List.filter is_audio_end (unread k script)))
   ≤ length (List.filter is_audio_end script))%nat.
Proof.
  revert k. induction script as [|[m|e] rest IH]; intros k;
    cbn [listen_loop unread List.filter]; try discriminate.
  pose proof (listen_message_break k m) as Hb.
  destruct (client_ctl (listen_message k m)); cbn [client_how].
  - intros H. specialize (IH _ H).
    destruct (is_audio_end (Delivers m)); cbn [length]; lia.
  - intros _. rewrite Hb by reflexivity. cbn [length]. lia.
  - discriminate.
Qed.

(** X13: [listen] never has two requests outstanding: it sends the requests
    for the lines typed, in order, and the next one only after the
    [audio_end] of the one before, so the requests sent are at most one more
    than the [audio_end] messages received; and it never returns normally. *)
Theorem listen_one_request_at_a_time st turns script :
  asked (listen_turns st turns script) `prefix_of` requests_of turns
  ∧ (length (asked (listen_turns st turns script))
     ≤ S (length (List.filter is_audio_end script)))%nat
  ∧ session_how (listen_turns st turns script) ≠ Completed.
Proof.
  revert st script. induction turns as [|t later IH]; intros st script; simpl.
  { split_and!; [apply prefix_nil | lia | discriminate]. }
  unfold requests_of. simpl. fold (requests_of later).
  destruct (ping t); simpl; [split_and!; [apply prefix_nil | lia | discriminate]|].
  destruct (typed_line t) as [e|line]; simpl;
    [split_and!; [apply prefix_nil | lia | discriminate]|].
  destruct (sending t); simpl; [split_and!; [apply prefix_nil | lia | discriminate]|].
  pose proof (unread_audio_end {| first_byte := false; out := st |} script) as Hun.
  destruct (client_how (listen_loop _ script)) eqn:Hh; simpl.
  - split_and!; [apply prefix_cons, prefix_nil | lia | discriminate].
  - destruct (IH (out (client_final (listen_loop {| first_byte := false; out := st |} script)))
               (unread {| first_byte := false; out := st |} script)) as (Hp & Hl & Hn).
    specialize (Hun eq_refl).
    split_and!; [apply prefix_cons, Hp | lia | exact Hn].
  - split_and!; [apply prefix_cons, prefix_nil | lia | discriminate].
Qed.

(** *** The test harness *)

Lemma report_audio fs : all_audio fs → flat_map report fs = [].
Proof.
  induction 1 as [|f fs Hf _ IH]; [reflexivity|].
  simpl. rewrite IH. destruct f; simpl in *; try discriminate; reflexivity.
Qed.

Lemma report_terminal f :
  is_terminal f = true →
  report f = [SayCompleted] ∨ ∃ error, report f = [SayError error].
Proof. destruct f; simpl; try discriminate; eauto. Qed.

Lemma stop_state s f :
  status (_stream (fst (stop s f))) = Closed
  ∧ _pyaudio (fst (stop s f)) = false
  ∧ _request_id (fst (stop s f)) = _request_id s
  ∧ open_conns (fst (stop s f)) =
      match _websocket s with
      | Some c => open_conns s ∖ {[c]}
      | None => open_conns s
      end.
Proof. unfold stop. destruct (_websocket s); simpl; auto. Qed.

(** What the harness prints for the frames of an invocation that has ended. *)
Lemma report_events s text net :
  ended (run_tts s text net) = true →
  flat_map report (events (run_tts s text net)) = [SayStarted; SayCompleted]
  ∨ ∃ error, flat_map report (events (run_tts s text net)) = [SayStarted; SayError error]
             ∨ flat_map report (events (run_tts s text net)) = [SayError error].
Proof.
  intros He.
  destruct (connect net) as [e|c] eqn:Hc.
  { rewrite (run_tts_connect_failed s text net e Hc). simpl. eauto. }
  destruct (send net) as [e|] eqn:Hs.
  { destruct (run_tts_send_failed s text net c e Hc Hs) as [-> _]. simpl. eauto. }
  destruct (run_tts_streaming s text net c Hc Hs) as (Hev & Hend & _).
  rewrite Hend in He. rewrite Hev.
  pose proof (receive_loop_frames c (in_flight c s) (inbound net)) as Hf.
  change (TTSStartedFrame :: ?l) with ([TTSStartedFrame] ++ l).
  rewrite !flat_map_app.
  destruct (how (receive_loop c (in_flight c s) (inbound net))) as [| |e];
    [discriminate| |].
  - destruct Hf as (chunks & last & -> & Ha & Hl).
    rewrite flat_map_app, (report_audio chunks Ha). simpl.
    destruct (report_terminal last Hl) as [-> | [error ->]]; simpl; eauto.
  - rewrite (report_audio _ Hf). simpl. eauto.
Qed.

Lemma open_after_run_and_stop s text net f :
  open_conns s = ∅ → _websocket s = None →
  open_conns (fst (stop (service_after (run_tts s text net)) f)) = ∅.
Proof.
  intros Ho Hw.
  destruct (stop_state (service_after (run_tts s text net)) f) as (_ & _ & _ & ->).
  destruct (connect net) as [e|c] eqn:Hc.
  - rewrite (run_tts_connect_failed s text net e Hc). simpl. rewrite Hw. exact Ho.
  - destruct (run_tts_connection s text net c Hc) as [-> _].
    destruct (run_tts_open s text net c Hc) as [-> | ->]; rewrite Ho;
      apply set_eq; intros x;
      rewrite !elem_of_difference, elem_of_union, elem_of_singleton, elem_of_empty; tauto.
Qed.

(** X14: [test_resemble_tts] always cleans up after itself.  Without an API key
    it raises before it has constructed anything.  With one, whenever it
    returns, the service it made has its playback stream closed, PortAudio
    terminated, no connection left open and the counter at 0; and it has
    printed one line for the start, if there was one, one for the completion or
    the error, none for the audio chunks, and "Cleaned up resources" last. *)
Theorem harness_cleans_up api_key typed net :
  let h := test_resemble_tts api_key typed net in
  (key_missing api_key = true →
   h = {| said_lines := []; harness_calls := []; harness_service := None;
          harness_how := Raised (Exception "RESEMBLE_API_KEY not found in .env file") |})
  ∧ (key_missing api_key = false → harness_how h = Completed →
     (∃ s', harness_service h = Some s'
            ∧ status (_stream s') = Closed ∧ _pyaudio s' = false
            ∧ open_conns s' = ∅ ∧ _request_id s' = 0)
     ∧ (∃ body, said_lines h = body ++ [SayCleaned]
                ∧ ((∃ why, body = [SayFailed why])
                   ∨ body = [SayStarted; SayCompleted]
                   ∨ ∃ error, body = [SayStarted; SayError error]
                              ∨ body = [SayError error]))).
Proof.
  simpl. unfold test_resemble_tts. split.
  - intros ->. reflexivity.
  - intros ->. destruct typed as [why|text].
    + intros _. simpl. split.
      * eexists. split; [reflexivity|]. simpl. auto.
      * exists [SayFailed why]. split; [reflexivity|]. eauto.
    + set (tts := init (default "" api_key) "55592656" "ca6f4989" default_params).
      destruct (ended (run_tts tts text net)) eqn:He; [|discriminate].
      pose proof (stop_state (service_after (run_tts tts text net)) (Some EndFrame))
        as (H1 & H2 & H3 & _).
      pose proof (open_after_run_and_stop tts text net (Some EndFrame) eq_refl eq_refl) as H4.
      pose proof (run_tts_ended_request_id tts text net He) as H5.
      pose proof (report_events tts text net He) as H6.
      destruct (stop (service_after (run_tts tts text net)) (Some EndFrame)) as [s' cs].
      simpl in *. intros _. split.
      * exists s'. split_and!; auto. congruence.
      * eexists. split; [reflexivity|]. right. exact H6.
Qed.

End Coverage.

(** * The scenarios of the specification, and the claims at concrete inputs *)

Import Scenario.

(** Scenario A: [audio_end] at once. *)
Example scenario_A :
  events (run_tts fresh "hello" (online [Delivers (audio_end_msg 1)]))
  = [TTSStartedFrame; TTSStoppedFrame].
Proof. reflexivity. Qed.

(** Scenario B: two [audio] messages, then [audio_end]. *)
Example scenario_B :
  events (run_tts fresh "hello"
            (online [Delivers (audio_msg 1 "QUJD"); Delivers (audio_msg 1 "aGk=");
                     Delivers (audio_end_msg 1)]))
  = [TTSStartedFrame; TTSAudioRawFrame ABC 48000 1; TTSAudioRawFrame hi 48000 1;
     TTSStoppedFrame].
Proof. reflexivity. Qed.

(** Every completed invocation leaves the counter at 0, so every request of a
    service carries the id 1. *)
Example second_request_id :
  In ("request_id", PyInt 1) (build_request (in_flight 7%nat used) "two").
Proof. vm_compute. tauto. Qed.

(** C1, as stated, fails when the connection cannot be made: the only frame
    is the [ErrorFrame], and no [TTSStartedFrame] precedes it. *)
Lemma no_started_frame_when_offline :
  ¬ started_then_terminal (events (run_tts fresh "hello" offline)).
Proof.
  intros (chunks & last & H & _). vm_compute in H. discriminate H.
Qed.

(** C2 at a concrete input: an [audio] message for request 2, received while
    request 1 is active, leaves no trace in the frames. *)
Lemma stale_message_discarded_witness :
  events (run_tts fresh "hello"
            (online [Delivers (audio_msg 2 "QUJD"); Delivers (audio_end_msg 1)]))
  = events (run_tts fresh "hello" (online [Delivers (audio_end_msg 1)]))
  ∧ yielded (handle_message (in_flight 7%nat fresh) (audio_msg 2 "QUJD")) = [].
Proof.
  pose proof (stale_message_discarded
                (list_to_map [("type", PyStr "audio"); ("request_id", PyInt 2);
                              ("audio_content", PyStr "QUJD")]) 1 eq_refl) as [Hstep Hrun].
  split.
  - exact (proj1 (Hrun fresh "hello" (online []) [] [Delivers (audio_end_msg 1)] eq_refl)).
  - exact (f_equal yielded (Hstep (in_flight 7%nat fresh) eq_refl)).
Defined.

(** C3 at a concrete input: the chunk made from ["QUJD"] is the three bytes
    [ABC]. *)
Lemma audio_chunk_payload_witness :
  yielded (handle_message (in_flight 7%nat fresh) (audio_msg 1 "QUJD"))
  = [TTSAudioRawFrame ABC SAMPLE_RATE 1]
  ∧ ∃ d content,
      In (Delivers (Parsed (PyDict d)))
         [Delivers (audio_msg 1 "QUJD"); Delivers (audio_end_msg 1)]
      ∧ py_eq_int (default PyNone (d !! "request_id")) 1 = true
      ∧ d !! "type" = Some (PyStr "audio")
      ∧ d !! "audio_content" = Some content
      ∧ b64decode content = inr ABC.
Proof.
  destruct (audio_chunk_payload (RT := rt)) as [Hstep Hrun]. split.
  - exact (Hstep (in_flight 7%nat fresh)
             (list_to_map [("type", PyStr "audio"); ("request_id", PyInt 1);
                           ("audio_content", PyStr "QUJD")])
             (PyStr "QUJD") eq_refl eq_refl eq_refl).
  - apply (Hrun fresh "hello"
             (online [Delivers (audio_msg 1 "QUJD"); Delivers (audio_end_msg 1)])
             ABC 48000 1).
    vm_compute. tauto.
Defined.

(** C4, as stated, fails: the frame carries the message behind the prefix
    ["API Error: "]. *)
Lemma error_text_is_prefixed :
  events (run_tts fresh "hello" (online [Delivers (error_msg 1 "quota exceeded")]))
  ≠ [TTSStartedFrame; ErrorFrame "quota exceeded"].
Proof. vm_compute. discriminate. Qed.

(** C4 (amended) at concrete inputs: with a message, and without the field. *)
Lemma service_error_reported_witness :
  (events (run_tts fresh "hello" (online [Delivers (error_msg 1 "quota exceeded")]))
   = [TTSStartedFrame; ErrorFrame "API Error: quota exceeded"]
   ∧ ended (run_tts fresh "hello" (online [Delivers (error_msg 1 "quota exceeded")])) = true)
  ∧ yielded (handle_message (in_flight 7%nat fresh)
               (obj [("type", PyStr "error"); ("request_id", PyInt 1)]))
    = [ErrorFrame "API Error: Unknown error"].
Proof.
  destruct (service_error_reported (RT := rt)) as [Hstep Hrun]. split.
  - exact (Hrun fresh "hello" (online [Delivers (error_msg 1 "quota exceeded")]) 7%nat
             (list_to_map [("type", PyStr "error"); ("request_id", PyInt 1);
                           ("message", PyStr "quota exceeded")])
             [] eq_refl eq_refl eq_refl eq_refl eq_refl).
  - exact (f_equal yielded
             (Hstep (in_flight 7%nat fresh)
                (list_to_map [("type", PyStr "error"); ("request_id", PyInt 1)])
                eq_refl eq_refl)).
Defined.

(** C5 at concrete inputs: after [audio_end], and after the connection is lost
    in mid-stream. *)
Lemma request_id_reset_witness :
  _request_id (service_after
                 (run_tts fresh "hello" (online [Delivers (audio_end_msg 1)]))) = 0
  ∧ _request_id (service_after
                   (run_tts fresh "hello"
                      (online [Delivers (audio_msg 1 "QUJD"); Fails ConnectionClosed]))) = 0.
Proof.
  split.
  - exact (proj1 (request_id_reset fresh "hello" (online [Delivers (audio_end_msg 1)]))
             eq_refl).
  - exact (proj2 (proj2 (request_id_reset fresh "hello"
                           (online [Delivers (audio_msg 1 "QUJD")]))
                    ConnectionClosed)).
Defined.



(** [stop] has no guard of its own: with libraries in which closing a closed
    stream raises, the first call returns and the second raises. *)
Example stop_relies_on_the_libraries :
  (∃ w', stop_io_times (H := strict_model) 1 fresh None fresh = inr w')
  ∧ stop_io_times (H := strict_model) 2 fresh None fresh = inl (Exception "Stream closed").
Proof. split; [eexists|]; reflexivity. Qed.

(** C7, as stated, fails for [run_tts]: the unparseable message produces the
    terminal [ErrorFrame] and the messages after it are not handled. *)
Lemma run_tts_aborts_on_garbage :
  let r := run_tts fresh "hello"
             (online [Delivers garbage; Delivers (audio_msg 1 "QUJD");
                      Delivers (audio_end_msg 1)]) in
  let r' := run_tts fresh "hello"
              (online [Delivers (audio_msg 1 "QUJD"); Delivers (audio_end_msg 1)]) in
  events r = [TTSStartedFrame; ErrorFrame "Expecting value: line 1 column 1 (char 0)"]
  ∧ events r ≠ events r'.
Proof. split; [reflexivity | vm_compute; discriminate]. Qed.

(** C7 (amended) at concrete inputs. *)
Lemma malformed_message_policy_witness :
  console_out (listen_loop {| first_byte := false; out := _stream fresh |}
                 [Delivers garbage; Delivers (audio_end_msg 1)])
  = [PrintNotJson]
  ∧ events (run_tts fresh "hello"
              (online [Delivers (audio_msg 1 "QUJD"); Delivers garbage;
                       Delivers (audio_end_msg 1)]))
    = [TTSStartedFrame; TTSAudioRawFrame ABC 48000 1;
       ErrorFrame "Expecting value: line 1 column 1 (char 0)"].
Proof.
  destruct (malformed_message_policy (RT := rt) "Expecting value: line 1 column 1 (char 0)")
    as [Hlisten Hrun].
  split.
  - exact (proj1 (Hlisten {| first_byte := false; out := _stream fresh |}
                    [Delivers (audio_end_msg 1)])).
  - exact (proj1 (Hrun fresh "hello" (online []) [Delivers (audio_msg 1 "QUJD")]
                    [Delivers (audio_end_msg 1)] eq_refl)).
Defined.

(** C8, as stated, fails on the text of the frame: it starts with a capital
    letter. *)
Lemma connection_closed_text :
  let r := run_tts fresh "hello"
             (online [Delivers (audio_msg 1 "QUJD"); Fails ConnectionClosed]) in
  events r = [TTSStartedFrame; TTSAudioRawFrame ABC 48000 1;
              ErrorFrame "Connection closed unexpectedly"]
  ∧ events r ≠ [TTSStartedFrame; TTSAudioRawFrame ABC 48000 1;
                ErrorFrame "connection closed unexpectedly"].
Proof. split; [reflexivity | vm_compute; discriminate]. Qed.

(** C8 (amended) at concrete inputs: no connection, and a connection lost
    after one chunk. *)
Lemma connection_failure_reported_witness :
  events (run_tts fresh "hello" offline) = [ErrorFrame "[Errno 111] Connect call failed"]
  ∧ events (run_tts fresh "hello"
              (online [Delivers (audio_msg 1 "QUJD"); Fails ConnectionClosed]))
    = [TTSStartedFrame; TTSAudioRawFrame ABC 48000 1;
       ErrorFrame "Connection closed unexpectedly"].
Proof.
  split.
  - exact (proj1 (proj1 (proj2 (connection_failure_reported fresh "hello" offline))
                    (Exception "[Errno 111] Connect call failed") eq_refl)).
  - exact (proj1 (proj2 (proj2 (connection_failure_reported fresh "hello" (online [])))
                    [Delivers (audio_msg 1 "QUJD")] [] eq_refl)).
Defined.

(** C9, as stated, fails: a service that holds the open connection 3 connects
    again, and the new connection 7 replaces the one it held. *)
Lemma connects_again_while_connected :
  ¬ reuses_open_connection used "two" (online []).
Proof.
  intros H. destruct (H 3%nat) as [Hconnect _].
  - reflexivity.
  - apply elem_of_union_l, elem_of_singleton. reflexivity.
  - vm_compute in Hconnect. discriminate Hconnect.
Qed.

(** * The further properties at concrete inputs *)

(** X3: an [audio] message that arrives after [audio_end] changes nothing. *)
Lemma events_grow_witness :
  run_tts fresh "hello"
    (online [Delivers (audio_end_msg 1); Delivers (audio_msg 1 "QUJD")])
  = run_tts fresh "hello" (online [Delivers (audio_end_msg 1)]).
Proof.
  exact (proj2 (events_grow fresh "hello" (online []) [Delivers (audio_end_msg 1)]
                  [Delivers (audio_msg 1 "QUJD")]) eq_refl).
Defined.

(** X4: [run_tts] on a service that was stopped. *)
Lemma inactive_stream_no_audio_witness :
  events (run_tts (fst (stop fresh None)) "hello"
            (online [Delivers (audio_msg 1 "QUJD"); Delivers (audio_end_msg 1)]))
  = [TTSStartedFrame; ErrorFrame "[Errno -9988] Stream closed"].
Proof.
  assert (status (_stream (fst (stop fresh None))) ≠ Active) as Hst by discriminate.
  destruct (inactive_stream_no_audio (fst (stop fresh None)) "hello" (online []) Hst)
    as [_ Hrun].
  exact (proj1 (Hrun [] [Delivers (audio_end_msg 1)]
                  (list_to_map [("type", PyStr "audio"); ("request_id", PyInt 1);
                                ("audio_content", PyStr "QUJD")])
                  (PyStr "QUJD") ABC eq_refl eq_refl eq_refl eq_refl eq_refl)).
Defined.

(** X5: a message of a type the code does not know. *)
Lemma unknown_type_ignored_witness :
  events (run_tts fresh "hello"
            (online [Delivers (obj [("type", PyStr "progress"); ("request_id", PyInt 1)]);
                     Delivers (audio_end_msg 1)]))
  = events (run_tts fresh "hello" (online [Delivers (audio_end_msg 1)])).
Proof.
  assert ((list_to_map [("type", PyStr "progress"); ("request_id", PyInt 1)]
             : gmap string pyvalue) !! "type"
          = Some (PyStr "progress")) as Hty by (vm_compute; reflexivity).
  destruct (unknown_type_ignored
              (list_to_map [("type", PyStr "progress"); ("request_id", PyInt 1)])
              (PyStr "progress") Hty eq_refl eq_refl eq_refl) as [_ Hrun].
  exact (proj1 (Hrun fresh "hello" (online []) [] [Delivers (audio_end_msg 1)])).
Defined.

(** X6: a JSON list. *)
Lemma non_object_message_fails_witness :
  events (run_tts fresh "hello" (online [Delivers (Parsed (PyList []))]))
  = [TTSStartedFrame; ErrorFrame "'list' object has no attribute 'get'"].
Proof.
  exact (proj1 (non_object_message_fails fresh "hello" (online []) [] [] (PyList [])
                  eq_refl eq_refl)).
Defined.

(** X7: an object without [type], and an [audio] message without content. *)
Lemma missing_field_fails_witness :
  events (run_tts fresh "hello" (online [Delivers (obj [("request_id", PyInt 1)])]))
  = [TTSStartedFrame; ErrorFrame "'type'"]
  ∧ events (run_tts fresh "hello"
              (online [Delivers (obj [("type", PyStr "audio"); ("request_id", PyInt 1)])]))
    = [TTSStartedFrame; ErrorFrame "'audio_content'"].
Proof.
  split.
  - exact (proj1 (proj1 (missing_field_fails fresh "hello" (online []) [] []
                           (list_to_map [("request_id", PyInt 1)]) eq_refl eq_refl)
                    eq_refl)).
  - exact (proj1 (proj2 (missing_field_fails fresh "hello" (online []) [] []
                           (list_to_map [("type", PyStr "audio"); ("request_id", PyInt 1)])
                           eq_refl eq_refl)
                    eq_refl eq_refl)).
Defined.

(** X8: the second request of a service carries the id of the first. *)
Lemma request_id_repeats_witness :
  In ("request_id", PyInt 1)
     (build_request
        (in_flight 7%nat
           (service_after (run_tts fresh "one" (online [Delivers (audio_end_msg 1)]))))
        "two")
  ∧ events (run_tts
              (service_after (run_tts fresh "one" (online [Delivers (audio_end_msg 1)])))
              "two" (online [Delivers (audio_end_msg 1)]))
    = [TTSStartedFrame; TTSStoppedFrame].
Proof.
  destruct (request_id_repeats fresh "one" (online [Delivers (audio_end_msg 1)])
              "two" (online [Delivers (audio_end_msg 1)]) 7%nat eq_refl eq_refl)
    as [[_ Hid] Hrun].
  split.
  - exact Hid.
  - exact (proj1 (Hrun (list_to_map [("type", PyStr "audio_end"); ("request_id", PyInt 1)])
                    [] eq_refl eq_refl eq_refl eq_refl)).
Defined.

(** X9: the connection 3 that [used] holds is still open after the next
    invocation has connected to 7 and the service has been stopped. *)
Lemma stop_after_run_witness :
  3%nat ∈ open_conns (fst (stop (service_after (run_tts used "two" (online []))) None)).
Proof.
  destruct (stop_after_run used "two" (online []) 7%nat None eq_refl) as (_ & Hkept & _).
  apply (Hkept 3%nat).
  - apply elem_of_union_l, elem_of_singleton. reflexivity.
  - discriminate.
Defined.

(** X11: a JSON number received by [listen], and a dropped connection. *)
Lemma listen_swallows_errors_witness :
  listen_message {| first_byte := false; out := _stream fresh |} (Parsed (PyInt 5))
  = {| printed := [PrintNotJson];
       client_after := {| first_byte := false; out := _stream fresh |};
       client_ctl := Continue |}
  ∧ In (Fails ConnectionClosed) [Delivers garbage; Fails ConnectionClosed].
Proof.
  destruct (listen_swallows_errors (RT := rt) {| first_byte := false; out := _stream fresh |})
    as (Hloop & Hvalue & _).
  split.
  - exact (Hvalue (PyInt 5) eq_refl).
  - exact (Hloop [Delivers garbage; Fails ConnectionClosed] ConnectionClosed eq_refl).
Defined.

(** X14: the harness on a run that completes. *)
Lemma harness_cleans_up_witness :
  ∃ s', harness_service
          (test_resemble_tts (Some "key") (inr "hello")
             (online [Delivers (audio_msg 1 "QUJD"); Delivers (audio_end_msg 1)]))
        = Some s'
        ∧ status (_stream s') = Closed ∧ _pyaudio s' = false
        ∧ open_conns s' = ∅ ∧ _request_id s' = 0.
Proof.
  exact (proj1 (proj2 (harness_cleans_up (Some "key") (inr "hello")
                         (online [Delivers (audio_msg 1 "QUJD"); Delivers (audio_end_msg 1)]))
                  eq_refl eq_refl)).
Defined.

(** The harness on that run prints a line for the start and one for the
    completion, none for the chunk. *)
Example harness_lines :
  said_lines (test_resemble_tts (Some "key") (inr "hello")
                (online [Delivers (audio_msg 1 "QUJD"); Delivers (audio_end_msg 1)]))
  = [SayStarted; SayCompleted; SayCleaned].
Proof. reflexivity. Qed.

(** Two turns of [listen]: the second request goes out after the first
    [audio_end]. *)
Example listen_two_turns :
  let t line := {| ping := None; typed_line := inr line; sending := None |} in
  let r := listen None (_stream fresh) [t "one"; t "two"]
             [Delivers (audio_msg 1 "QUJD"); Delivers (audio_end_msg 1);
              Delivers garbage; Delivers (audio_msg 1 "aGk=")] in
  asked r = [client_request "one"; client_request "two"]
  ∧ shown r = [PrintTTFS; PrintNotJson; PrintTTFS]
  ∧ played (speaker r) = [ABC; hi]
  ∧ session_how r = Awaiting.
Proof. repeat split; reflexivity. Qed.
